(** * Recipe API: ownership-scoped views, tag reconciliation, user serializers

    A shallow embedding of [app/recipe/views.py] and [app/user/serializers.py].
    The relational store is a record of tables; a queryset is a list of rows;
    view-set actions are functions from a request and a store to a store and a
    response. *)

From Stdlib Require Import String Ascii ZArith.
From stdpp Require Import base option list sorting gmap strings.

Local Open Scope string_scope.

(** ** Data model *)

Module Models.

(** Modelled from the spec: [core.models] is not among the sources.  A user
    is {email, password (hashed), name}; the primary key is the identity that
    the other tables refer to. *)
Record User := mkUser {
  user_id : nat;
  email : string;
  password : string;
  name : string
}.

(** Modelled from the spec: [core.models.Tag] is {id, name, owner reference}. *)
Record Tag := mkTag {
  tag_id : nat;
  tag_name : string;
  tag_user : nat
}.

(** Modelled from the spec: [core.models.Recipe] is {id, owner reference,
    title, time_minutes, price, description, link}; the many-to-many relation
    to tags is the join table [recipe_tags] of the store.  The price is a
    decimal with two places, kept in hundredths. *)
Record Recipe := mkRecipe {
  recipe_id : nat;
  recipe_user : nat;
  title : string;
  time_minutes : nat;
  price : Z;
  description : string;
  link : string
}.

(** The store: one list of rows per table, in insertion order, and the join
    table of (recipe id, tag id) pairs. *)
Record Db := mkDb {
  User_objects : list User;
  Tag_objects : list Tag;
  Recipe_objects : list Recipe;
  recipe_tags : gset (nat * nat)
}.

#[global] Instance User_eq_dec : EqDecision User.
Proof. solve_decision. Defined.
#[global] Instance Tag_eq_dec : EqDecision Tag.
Proof. solve_decision. Defined.
#[global] Instance Recipe_eq_dec : EqDecision Recipe.
Proof. solve_decision. Defined.

(** [recipe.tags.all()] *)
Definition tags_all (db : Db) (r : Recipe) : list Tag :=
  filter (λ t, (recipe_id r, tag_id t) ∈ recipe_tags db) (Tag_objects db).

(** The ids of the tags attached to a recipe id. *)
Definition tag_ids_of (db : Db) (rid : nat) : gset nat :=
  set_map snd (filter (λ p, p.1 = rid) (recipe_tags db)).

End Models.
Export Models.

(** ** Querysets *)

Module QuerySet.

(** What a view needs from a model class: its table, the primary key, the
    [user] foreign key, and row deletion (which also drops the join rows). *)
Class Model (A : Type) := {
  objects : Db → list A;
  pk : A → nat;
  owner : A → nat;
  delete_row : A → Db → Db
}.

#[global] Instance Recipe_Model : Model Recipe := {|
  objects := Recipe_objects;
  pk := recipe_id;
  owner := recipe_user;
  delete_row r db :=
    mkDb (User_objects db) (Tag_objects db)
         (filter (λ x, recipe_id x ≠ recipe_id r) (Recipe_objects db))
         (filter (λ p, p.1 ≠ recipe_id r) (recipe_tags db))
|}.

#[global] Instance Tag_Model : Model Tag := {|
  objects := Tag_objects;
  pk := tag_id;
  owner := tag_user;
  delete_row t db :=
    mkDb (User_objects db)
         (filter (λ x, tag_id x ≠ tag_id t) (Tag_objects db))
         (Recipe_objects db)
         (filter (λ p, p.2 ≠ tag_id t) (recipe_tags db))
|}.

(** [qs.filter(user=u)], where [u] is [request.user]: [None] stands for the
    anonymous user, which owns no row. *)
Definition filter_user `{Model A} (u : option nat) (qs : list A) : list A :=
  filter (λ a, Some (owner a) = u) qs.

(** The order of [order_by('-id')]: larger primary key first. *)
Definition id_desc `{Model A} : relation A := λ a b, (pk b ≤ pk a)%nat.

(** The order of [order_by('-name')]: larger name first, where [collate]
    is the order in which the database compares strings ([collate a b] when
    [a] sorts before or with [b]). *)
Definition name_desc (collate : string → string → bool) : relation Tag :=
  λ a b, collate (tag_name b) (tag_name a) = true.

#[global] Instance id_desc_dec `{Model A} : RelDecision (id_desc (A:=A)).
Proof. intros a b. unfold id_desc. apply _. Defined.

#[global] Instance name_desc_dec collate : RelDecision (name_desc collate).
Proof. intros a b. unfold name_desc. apply _. Defined.

Definition order_by_id_desc `{Model A} (qs : list A) : list A :=
  merge_sort id_desc qs.

Definition order_by_name_desc (collate : string → string → bool)
    (qs : list Tag) : list Tag :=
  merge_sort (name_desc collate) qs.

(** [qs.get(pk=k)]: the row with that primary key, if any. *)
Definition get_pk `{Model A} (k : nat) (qs : list A) : option A :=
  snd <$> list_find (λ a, pk a = k) qs.

End QuerySet.
Export QuerySet.

(** ** The REST framework: requests, responses, generic view sets *)

Module RestFramework.

Inductive status :=
  | HTTP_200_OK
  | HTTP_201_CREATED
  | HTTP_204_NO_CONTENT
  | HTTP_400_BAD_REQUEST
  | HTTP_401_UNAUTHORIZED
  | HTTP_403_FORBIDDEN
  | HTTP_404_NOT_FOUND
  | HTTP_405_METHOD_NOT_ALLOWED.

Inductive APIException :=
  | NotAuthenticated
  | PermissionDenied
  | Http404
  | ValidationError
  | MethodNotAllowed.

(** The names of the actions that the mixins provide, and [action_none] for
    [self.action] of a request whose method the route binds to no action
    ([None] in the framework). *)
Inductive action_name :=
  | action_list
  | action_create
  | action_retrieve
  | action_update
  | action_partial_update
  | action_destroy
  | action_none.

#[global] Instance action_name_eq_dec : EqDecision action_name.
Proof. solve_decision. Defined.

(** A routed call: the action with the primary key from the URL and the
    request body, where the action has them; [Unrouted] is a request on the
    list or on a detail URL whose method the route binds to no action and
    for which the view has no handler (a DELETE on the list URL, a POST on a
    detail URL). *)
Inductive call (D : Type) :=
  | List
  | Create (data : D)
  | Retrieve (k : nat)
  | Update (k : nat) (data : D)
  | PartialUpdate (k : nat) (data : D)
  | Destroy (k : nat)
  | Unrouted.
Arguments List {D}.
Arguments Unrouted {D}.
Arguments Create {D} data.
Arguments Retrieve {D} k.
Arguments Update {D} k data.
Arguments PartialUpdate {D} k data.
Arguments Destroy {D} k.

Definition action {D} (c : call D) : action_name :=
  match c with
  | List => action_list
  | Create _ => action_create
  | Retrieve _ => action_retrieve
  | Update _ _ => action_update
  | PartialUpdate _ _ => action_partial_update
  | Destroy _ => action_destroy
  | Unrouted => action_none
  end.

(** [request.user] is [Some u] once an authenticator has identified the
    caller, [None] for the anonymous user. *)
Record Request (D : Type) := mkRequest {
  request_user : option nat;
  request_call : call D
}.
Arguments mkRequest {D} _ _.
Arguments request_user {D} _.
Arguments request_call {D} _.

Inductive authentication_class := TokenAuthentication | SessionAuthentication.

Definition authenticate_header (c : authentication_class) : option string :=
  match c with
  | TokenAuthentication => Some "Token"
  | SessionAuthentication => None
  end.

Inductive permission_class := AllowAny | IsAuthenticated.

Definition has_permission {D} (p : permission_class) (req : Request D) : bool :=
  match p with
  | AllowAny => true
  | IsAuthenticated => bool_decide (is_Some (request_user req))
  end.

Inductive serializer_class :=
  | RecipeSerializer
  | RecipeDetailSerializer
  | TagSerializer.

(** Response bodies hold the rows that are serialized and the serializer
    class that renders them. *)
Inductive Data (A : Type) :=
  | NoData
  | One (cls : serializer_class) (a : A)
  | Many (cls : serializer_class) (l : list A).
Arguments NoData {A}.
Arguments One {A} cls a.
Arguments Many {A} cls l.

Definition records {A} (d : Data A) : list A :=
  match d with
  | NoData => []
  | One _ a => [a]
  | Many _ l => l
  end.

Record Response (A : Type) := mkResponse {
  status_code : status;
  data : Data A
}.
Arguments mkResponse {A} _ _.
Arguments status_code {A} _.
Arguments data {A} _.

(** A model serializer as the views use it: validation of the request body
    (full or partial), and [create] and [update], which see the store and the
    user of the serializer context; [create] also receives the [user=]
    keyword of [save], if one is given. *)
Record Serializer (A D : Type) := mkSerializer {
  is_valid : bool → Db → D → bool;
  create : option nat → option nat → D → Db → Db * A;
  update : option nat → A → D → Db → Db * A
}.
Arguments is_valid {A D} _ _ _ _.
Arguments create {A D} _ _ _ _ _.
Arguments update {A D} _ _ _ _ _.

Section GenericViewSet.
Context {A D : Type} `{Model A}.

(** The attributes and overridden methods of a view set class. *)
Record ViewSet := mkViewSet {
  mixins : list action_name;
  authentication_classes : list authentication_class;
  permission_classes : list permission_class;
  get_queryset : Request D → Db → list A;
  get_serializer_class : action_name → serializer_class;
  get_serializer : serializer_class → Serializer A D;
  perform_create : Request D → Serializer A D → D → Db → Db * A
}.

(** [CreateModelMixin.perform_create]: [serializer.save()] *)
Definition default_perform_create
  (req : Request D) (sz : Serializer A D) (d : D) (db : Db) : Db * A :=
  create sz (request_user req) None d db.

Variable self : ViewSet.

(** [APIView.permission_denied] *)
Definition permission_denied (req : Request D) : APIException :=
  match authentication_classes self, request_user req with
  | _ :: _, None => NotAuthenticated
  | _, _ => PermissionDenied
  end.

(** [APIView.check_permissions] *)
Definition check_permissions (req : Request D) : option APIException :=
  if forallb (λ p, has_permission p req) (permission_classes self)
  then None else Some (permission_denied req).

(** [APIView.get_authenticate_header]: the header of the first
    authentication class. *)
Definition get_authenticate_header : option string :=
  match authentication_classes self with
  | c :: _ => authenticate_header c
  | [] => None
  end.

(** [APIView.handle_exception]: the status of the error response. *)
Definition handle_exception (e : APIException) : Response A :=
  let st :=
    match e with
    | NotAuthenticated =>
        match get_authenticate_header with
        | Some _ => HTTP_401_UNAUTHORIZED
        | None => HTTP_403_FORBIDDEN
        end
    | PermissionDenied => HTTP_403_FORBIDDEN
    | Http404 => HTTP_404_NOT_FOUND
    | ValidationError => HTTP_400_BAD_REQUEST
    | MethodNotAllowed => HTTP_405_METHOD_NOT_ALLOWED
    end in
  mkResponse st NoData.

(** [GenericAPIView.get_object]: looked up in the view's queryset. *)
Definition get_object (req : Request D) (db : Db) (k : nat)
  : APIException + A :=
  match get_pk k (get_queryset self req db) with
  | Some a => inr a
  | None => inl Http404
  end.

(** The handlers of the mixins, and [http_method_not_allowed] for a method
    without handler.  An exception leaves the store as it was. *)
Definition handler (req : Request D) (db : Db)
  : APIException + (Db * Response A) :=
  let cls := get_serializer_class self (action (request_call req)) in
  let sz := get_serializer self cls in
  match request_call req with
  | List =>
      inr (db, mkResponse HTTP_200_OK (Many cls (get_queryset self req db)))
  | Create d =>
      if is_valid sz false db d then
        let '(db', a) := perform_create self req sz d db in
        inr (db', mkResponse HTTP_201_CREATED (One cls a))
      else inl ValidationError
  | Retrieve k =>
      match get_object req db k with
      | inr a => inr (db, mkResponse HTTP_200_OK (One cls a))
      | inl e => inl e
      end
  | Update k d =>
      match get_object req db k with
      | inr a =>
          if is_valid sz false db d then
            let '(db', a') := update sz (request_user req) a d db in
            inr (db', mkResponse HTTP_200_OK (One cls a'))
          else inl ValidationError
      | inl e => inl e
      end
  | PartialUpdate k d =>
      match get_object req db k with
      | inr a =>
          if is_valid sz true db d then
            let '(db', a') := update sz (request_user req) a d db in
            inr (db', mkResponse HTTP_200_OK (One cls a'))
          else inl ValidationError
      | inl e => inl e
      end
  | Destroy k =>
      match get_object req db k with
      | inr a => inr (delete_row a db, mkResponse HTTP_204_NO_CONTENT NoData)
      | inl e => inl e
      end
  | Unrouted => inl MethodNotAllowed
  end.

(** [APIView.dispatch]: permissions first, then the handler of the action
    if a mixin provides it. *)
Definition dispatch (req : Request D) (db : Db) : Db * Response A :=
  match check_permissions req with
  | Some e => (db, handle_exception e)
  | None =>
      if decide (action (request_call req) ∈ mixins self) then
        match handler req db with
        | inr res => res
        | inl e => (db, handle_exception e)
        end
      else (db, handle_exception MethodNotAllowed)
  end.

End GenericViewSet.
Arguments ViewSet A D : clear implicits.

End RestFramework.
Export RestFramework.

(** ** [recipe/views.py] *)

Module Views.

Section Views.
(** [recipe.serializers] is imported by the views but is not among the
    sources: the serializer classes are parameters of the views, [RD] and
    [TD] being the request bodies they accept. *)
Context {RD TD : Type}.
Variable recipe_serializers : serializer_class → Serializer Recipe RD.
Variable tag_serializers : serializer_class → Serializer Tag TD.

(** The collation of the database, which decides how [order_by] compares
    names. *)
Variable collate : string → string → bool.

(** [class RecipeViewSet(viewsets.ModelViewSet)]: the model view set has
    all six actions; [get_serializer_class] picks the list serializer for
    the list action; [get_queryset] is
    [self.queryset.filter(user=self.request.user).order_by('-id')];
    [perform_create] is [serializer.save(user=self.request.user)]. *)
Definition RecipeViewSet : ViewSet Recipe RD := {|
  mixins := [action_create; action_retrieve; action_update;
             action_partial_update; action_destroy; action_list];
  authentication_classes := [TokenAuthentication];
  permission_classes := [IsAuthenticated];
  get_serializer_class a :=
    if decide (a = action_list) then RecipeSerializer
    else RecipeDetailSerializer;
  get_queryset req db :=
    order_by_id_desc (filter_user (request_user req) (Recipe_objects db));
  get_serializer := recipe_serializers;
  perform_create req sz d db :=
    create sz (request_user req) (request_user req) d db
|}.

(** [class TagViewSet(DestroyModelMixin, UpdateModelMixin, ListModelMixin,
    GenericViewSet)]: [get_queryset] is
    [self.queryset.filter(user=self.request.user).order_by('-name')]. *)
Definition TagViewSet : ViewSet Tag TD := {|
  mixins := [action_destroy; action_update; action_partial_update;
             action_list];
  authentication_classes := [TokenAuthentication];
  permission_classes := [IsAuthenticated];
  get_serializer_class _ := TagSerializer;
  get_queryset req db :=
    order_by_name_desc collate
      (filter_user (request_user req) (Tag_objects db));
  get_serializer := tag_serializers;
  perform_create := default_perform_create
|}.

End Views.

End Views.
Export Views.

(** ** [user/serializers.py] *)

Module UserSerializers.

(** Python values that the serializers hold in dictionaries. *)
Inductive value :=
  | VNone
  | VStr (s : string)
  | VUser (u : User).

#[global] Instance value_eq_dec : EqDecision value.
Proof. solve_decision. Defined.

(** Truth value of a Python object: [None] and the empty string are false,
    a model instance is true. *)
Definition truthy (v : value) : bool :=
  match v with
  | VNone => false
  | VStr s => negb (String.eqb s "")
  | VUser _ => true
  end.

(** [d.get(k)] *)
Definition dict_get (d : gmap string value) (k : string) : value :=
  default VNone (d !! k).

(** [user.save()]: the row with the user's primary key is overwritten; a
    user whose key is not in the table is inserted. *)
Definition save (u : User) (db : Db) : Db :=
  mkDb (if decide (user_id u ∈ user_id <$> User_objects db)
        then (λ x, if decide (user_id x = user_id u) then u else x)
               <$> User_objects db
        else User_objects db ++ [u])
       (Tag_objects db) (Recipe_objects db) (recipe_tags db).

Module UserSerializer.

Record kwargs := mkKwargs {
  write_only : bool;
  min_length : option nat
}.

(** [Meta.fields] *)
Definition fields : list string := ["email"; "password"; "name"].

(** [Meta.extra_kwargs] *)
Definition extra_kwargs : gmap string kwargs :=
  {[ "password" := {| write_only := true; min_length := Some 5 |} ]}.

Definition getattr (u : User) (f : string) : option string :=
  if decide (f = "email") then Some (email u)
  else if decide (f = "password") then Some (password u)
  else if decide (f = "name") then Some (name u)
  else None.

Definition setattr (u : User) (f : string) (v : string) : User :=
  if decide (f = "email") then mkUser (user_id u) v (password u) (name u)
  else if decide (f = "password") then mkUser (user_id u) (email u) v (name u)
  else if decide (f = "name") then mkUser (user_id u) (email u) (password u) v
  else u.

Definition is_write_only (f : string) : bool :=
  match extra_kwargs !! f with
  | Some k => write_only k
  | None => false
  end.

(** [Serializer.to_representation]: the fields that are not write-only,
    in the order of [Meta.fields]. *)
Definition to_representation (u : User) : list (string * string) :=
  omap (λ f, if is_write_only f then None
             else (λ v, (f, v)) <$> getattr u f) fields.

Section Update.
(** [django.contrib.auth.hashers.make_password], behind
    [user.set_password]. *)
Variable make_password : string → string.

Definition set_password (u : User) (raw : string) : User :=
  mkUser (user_id u) (email u) (make_password raw) (name u).

(** [ModelSerializer.update]: every item of the validated data is set
    on the instance, which is then saved. *)
Definition super_update (instance : User) (validated_data : gmap string string)
    (db : Db) : Db * User :=
  let user := map_fold (λ k v u, setattr u k v) instance validated_data in
  (save user db, user).

(** [UserSerializer.update]: [validated_data.pop('password', None)], the
    generic update on what is left, then [if password:], which is false for
    [None] and for the empty string, guards [set_password] and a second
    [save].  The argument is the validated data, that is, the values that
    the framework hands over after it has converted and checked the fields
    of the request. *)
Definition update (instance : User) (validated_data : gmap string string)
    (db : Db) : Db * User :=
  let password := validated_data !! "password" in
  let validated_data := delete "password" validated_data in
  let '(db, user) := super_update instance validated_data db in
  match password with
  | Some p =>
      if decide (p = "") then (db, user)
      else let user := set_password user p in (save user db, user)
  | None => (db, user)
  end.

End Update.

End UserSerializer.

Module AuthTokenSerializer.

Section Validate.
(** [django.contrib.auth.authenticate], the credential check. *)
Variable authenticate : value → value → option User.

(** [AuthTokenSerializer.validate]: [if not email or password is None]
    raises the validation error; [if not user] after the credential check
    raises [NotAuthenticated]; otherwise [attrs['user'] = user]. *)
Definition validate (attrs : gmap string value)
    : APIException + gmap string value :=
  let email := dict_get attrs "email" in
  let password := dict_get attrs "password" in
  if negb (truthy email) || bool_decide (password = VNone) then
    inl ValidationError
  else
    match authenticate email password with
    | None => inl NotAuthenticated
    | Some user => inr (<["user" := VUser user]> attrs)
    end.
End Validate.

End AuthTokenSerializer.

End UserSerializers.
Export UserSerializers.

(** ** The recipe store and the tag reconciler *)

Module RecipeSerializers.

(** Modelled from the spec: the body of a recipe create or update, as
    [recipe/serializers.py] (not among the sources) would receive it after
    validation.  A field that the request does not supply is [None]; the
    nested [tags] field is the list of requested tag names. *)
Record RecipeData := mkRecipeData {
  data_title : option string;
  data_time_minutes : option nat;
  data_price : option Z;
  data_description : option string;
  data_link : option string;
  data_tags : option (list string)
}.

(** Modelled from the spec: the body of a tag update, which can supply the
    name ([recipe/serializers.py] is not among the sources). *)
Record TagData := mkTagData {
  data_name : option string
}.

(** Modelled from the spec: primary keys of new rows are fresh, one above the
    largest key of the table ([core.models] is not among the sources). *)
Definition fresh_id (ids : list nat) : nat := S (max_list ids).

(** Modelled from the spec: "look up an existing tag owned by the same user
    with that exact name" (the tag store of [core.models] and
    [recipe/serializers.py] is not among the sources). *)
Definition lookup_tag (owner : nat) (n : string) (ts : list Tag) : option Tag :=
  snd <$> list_find (λ t, tag_user t = owner ∧ tag_name t = n) ts.

(** Modelled from the spec: the natural key of a tag, "(name, owner) pair
    should be treated as a natural key for reconciliation"
    ([core.models] is not among the sources). *)
Definition tag_key (t : Tag) : string * nat := (tag_name t, tag_user t).

(** Modelled from the spec: get-or-create-by-name scoped to an owner: "if
    found, attach it; if not found, create a new tag owned by the user"
    ([recipe/serializers.py] is not among the sources). *)
Definition get_or_create_tag (owner : nat) (n : string) (db : Db) : Db * Tag :=
  match lookup_tag owner n (Tag_objects db) with
  | Some t => (db, t)
  | None =>
      let t := mkTag (fresh_id (tag_id <$> Tag_objects db)) n owner in
      (mkDb (User_objects db) (Tag_objects db ++ [t]) (Recipe_objects db)
            (recipe_tags db), t)
  end.

(** Modelled from the spec: "for each requested tag name ..." resolves the
    requested names in order, threading the store
    ([recipe/serializers.py] is not among the sources). *)
Fixpoint resolve_tags (owner : nat) (names : list string) (db : Db)
    : Db * list Tag :=
  match names with
  | [] => (db, [])
  | n :: names =>
      let '(db, t) := get_or_create_tag owner n db in
      let '(db, ts) := resolve_tags owner names db in
      (db, t :: ts)
  end.

(** Modelled from the spec: "the recipe's tag set is replaced to exactly
    equal the resolved set" ([recipe/serializers.py] is not among the
    sources). *)
Definition set_tags (rid : nat) (ids : gset nat) (db : Db) : Db :=
  mkDb (User_objects db) (Tag_objects db) (Recipe_objects db)
       (filter (λ p, p.1 ≠ rid) (recipe_tags db) ∪ set_map (λ i, (rid, i)) ids).

(** Modelled from the spec: the recipe reconciler (section 4.2);
    [recipe/serializers.py] is not among the sources. *)
Definition reconcile_tags (r : Recipe) (owner : nat) (names : list string)
    (db : Db) : Db :=
  let '(db, ts) := resolve_tags owner names db in
  set_tags (recipe_id r) (list_to_set (tag_id <$> ts)) db.

(** Modelled from the spec: "applies only supplied fields"
    ([recipe/serializers.py] is not among the sources). *)
Definition apply_fields (r : Recipe) (d : RecipeData) : Recipe :=
  mkRecipe (recipe_id r) (recipe_user r)
    (default (title r) (data_title d))
    (default (time_minutes r) (data_time_minutes d))
    (default (price r) (data_price d))
    (default (description r) (data_description d))
    (default (link r) (data_link d)).

(** Modelled from the spec: saving a recipe overwrites the row with its
    primary key ([core.models] is not among the sources). *)
Definition save_recipe (r : Recipe) (db : Db) : Db :=
  mkDb (User_objects db) (Tag_objects db)
       ((λ x, if decide (recipe_id x = recipe_id r) then r else x)
          <$> Recipe_objects db)
       (recipe_tags db).

(** Modelled from the spec: the update of the recipe serializer: the tags
    are reconciled only when a [tags] field is supplied, then the supplied
    fields are applied ([recipe/serializers.py] is not among the sources). *)
Definition update_recipe (owner : nat) (r : Recipe) (d : RecipeData) (db : Db)
    : Db * Recipe :=
  let db :=
    match data_tags d with
    | Some names => reconcile_tags r owner names db
    | None => db
    end in
  let r' := apply_fields r d in
  (save_recipe r' db, r').

(** Modelled from the spec: "partial update(recipe, owner, fields) → fails
    with NotFound if owner mismatch, else applies only supplied fields and
    leaves tags untouched unless a tags field is explicitly supplied"
    (section 4.3; [recipe/serializers.py] is not among the sources). *)
Definition partial_update (r : Recipe) (owner : nat) (d : RecipeData) (db : Db)
    : APIException + (Db * Recipe) :=
  if decide (recipe_user r = owner) then inr (update_recipe owner r d db)
  else inl Http404.

(** Modelled from the spec: "create(owner, fields) → new recipe with empty
    tag set", followed by the reconciliation of the requested tags
    (sections 4.2 and 4.3; [recipe/serializers.py] is not among the
    sources). *)
Definition create_recipe (owner : nat) (d : RecipeData) (db : Db) : Db * Recipe :=
  let blank :=
    mkRecipe (fresh_id (recipe_id <$> Recipe_objects db)) owner "" 0 0%Z "" "" in
  let r := apply_fields blank d in
  let db := mkDb (User_objects db) (Tag_objects db) (Recipe_objects db ++ [r])
                 (recipe_tags db) in
  (reconcile_tags r owner (default [] (data_tags d)) db, r).

(** Modelled from the spec: the recipe serializer that the views are given;
    validation is left to an external collaborator [valid], and a call
    without an authenticated user changes nothing
    ([recipe/serializers.py] is not among the sources). *)
Definition recipe_serializer (valid : bool → Db → RecipeData → bool)
    (cls : serializer_class) : Serializer Recipe RecipeData := {|
  is_valid := valid;
  create ctx user d db :=
    match user with
    | Some u => create_recipe u d db
    | None => (db, apply_fields (mkRecipe 0 0 "" 0 0%Z "" "") d)
    end;
  update ctx r d db :=
    match ctx with
    | Some u => update_recipe u r d db
    | None => (db, r)
    end
|}.

(** Modelled from the spec: "patching an existing tag's name updates only
    that field" ([recipe/serializers.py] is not among the sources). *)
Definition update_tag (t : Tag) (d : TagData) (db : Db) : Db * Tag :=
  let t' := mkTag (tag_id t) (default (tag_name t) (data_name d)) (tag_user t) in
  (mkDb (User_objects db)
        ((λ x, if decide (tag_id x = tag_id t) then t' else x) <$> Tag_objects db)
        (Recipe_objects db) (recipe_tags db), t').

(** Modelled from the spec: the tag serializer that the views are given
    ([recipe/serializers.py] is not among the sources). *)
Definition tag_serializer (valid : bool → Db → TagData → bool)
    (cls : serializer_class) : Serializer Tag TagData := {|
  is_valid := valid;
  create ctx user d db :=
    let t := mkTag (fresh_id (tag_id <$> Tag_objects db))
                   (default "" (data_name d)) (default 0 user) in
    (mkDb (User_objects db) (Tag_objects db ++ [t]) (Recipe_objects db)
          (recipe_tags db), t);
  update ctx t d db := update_tag t d db
|}.

End RecipeSerializers.
Export RecipeSerializers.

(** ** Sample stores, after the fixtures of the test suites *)

Module Fixtures.

Definition user1 : User := mkUser 1 "user@example.com" "pbkdf2$testpass123" "".
Definition user2 : User := mkUser 2 "foo@bar.com" "pbkdf2$testpass123" "".

Definition recipe1 : Recipe :=
  mkRecipe 1 1 "Test Recipe1" 22 525 "This is a test recipe" "https://www.example.com".
Definition recipe2 : Recipe :=
  mkRecipe 2 2 "Test Recipe2" 22 525 "This is a test recipe" "https://www.example.com".
Definition recipe3 : Recipe :=
  mkRecipe 3 1 "sample" 22 525 "This is a test recipe" "https://www.examplerecipe.com".

Definition tag_vegan : Tag := mkTag 1 "Vegan" 1.
Definition tag_dinner : Tag := mkTag 2 "Dinner" 1.
Definition tag_other : Tag := mkTag 3 "tag1" 2.
Definition tag_breakfast : Tag := mkTag 4 "breakfast" 1.

(** Two users, each with recipes and tags; recipe 1 carries the tags
    "Vegan" and "breakfast", recipe 2 the other user's tag. *)
Definition sample_db : Db :=
  mkDb [user1; user2]
       [tag_vegan; tag_dinner; tag_other; tag_breakfast]
       [recipe1; recipe2; recipe3]
       {[ (1, 1); (1, 4); (2, 3) ]}.

(** Serializers whose validation accepts every body. *)
Definition recipe_serializers : serializer_class → Serializer Recipe RecipeData :=
  recipe_serializer (λ _ _ _, true).
Definition tag_serializers : serializer_class → Serializer Tag TagData :=
  tag_serializer (λ _ _ _, true).

Definition no_fields : RecipeData :=
  mkRecipeData None None None None None None.

(** A hasher for the examples. *)
Definition sample_hasher (raw : string) : string := "pbkdf2$" ++ raw.

End Fixtures.

(** ** Helpers of the test suites *)

Module TestHelpers.

(** The keyword parameters of the test helper [create_recipe]: the recipe
    fields that a test overrides. *)
Record RecipeParams := mkRecipeParams {
  param_title : option string;
  param_time_minutes : option nat;
  param_price : option Z;
  param_description : option string;
  param_link : option string
}.

(** [Recipe.objects.create(user=user, **fields)]: a row with a new primary
    key is inserted at the end of the table. *)
Definition Recipe_objects_create (fields : nat → Recipe) (db : Db) : Db * Recipe :=
  let r := fields (fresh_id (recipe_id <$> Recipe_objects db)) in
  (mkDb (User_objects db) (Tag_objects db) (Recipe_objects db ++ [r])
        (recipe_tags db), r).

(** [create_recipe(user, **params)] of [tests/test_recipe_api.py]: the
    dictionary of defaults, updated with the parameters, is what the row is
    created from. *)
Definition create_recipe (user : nat) (params : RecipeParams) (db : Db)
    : Db * Recipe :=
  Recipe_objects_create
    (λ rid, mkRecipe rid user
       (default "Test Recipe" (param_title params))
       (default 22 (param_time_minutes params))
       (default 525%Z (param_price params))
       (default "This is a test recipe" (param_description params))
       (default "https://www.example.com" (param_link params)))
    db.

End TestHelpers.

(** * Properties *)

(** ** The orders of the querysets *)

Module OrderFacts.

#[global] Instance id_desc_total `{Model A} : Total (id_desc (A:=A)).
Proof. intros a b. unfold id_desc. lia. Qed.

#[global] Instance id_desc_trans `{Model A} : Transitive (id_desc (A:=A)).
Proof. intros a b c. unfold id_desc. lia. Qed.

Lemma ascii_compare_lt_trans (a b c : ascii) :
  Ascii.compare a b = Lt → Ascii.compare b c = Lt → Ascii.compare a c = Lt.
Proof.
  unfold Ascii.compare. rewrite !N.compare_lt_iff. lia.
Qed.

Lemma string_compare_lt_trans (s1 s2 s3 : string) :
  String.compare s1 s2 = Lt → String.compare s2 s3 = Lt →
  String.compare s1 s3 = Lt.
Proof.
  revert s2 s3. induction s1 as [|a s1 IH]; intros [|b s2] [|c s3]; simpl;
    try done.
  destruct (Ascii.compare a b) eqn:Hab; try done;
    destruct (Ascii.compare b c) eqn:Hbc; try done; intros H12 H23.
  - pose proof (Ascii.compare_eq_iff _ _ Hab).
    pose proof (Ascii.compare_eq_iff _ _ Hbc). subst.
    rewrite Hab. by eapply IH.
  - pose proof (Ascii.compare_eq_iff _ _ Hab). subst. by rewrite Hbc.
  - pose proof (Ascii.compare_eq_iff _ _ Hbc). subst. by rewrite Hab.
  - by rewrite (ascii_compare_lt_trans a b c).
Qed.

Lemma string_leb_trans (s1 s2 s3 : string) :
  String.leb s1 s2 = true → String.leb s2 s3 = true → String.leb s1 s3 = true.
Proof.
  unfold String.leb.
  destruct (String.compare s1 s2) eqn:H12; try done;
    destruct (String.compare s2 s3) eqn:H23; try done; intros _ _.
  - apply String.compare_eq_iff in H12. subst. by rewrite H23.
  - apply String.compare_eq_iff in H12. subst. by rewrite H23.
  - apply String.compare_eq_iff in H23. subst. by rewrite H12.
  - by rewrite (string_compare_lt_trans s1 s2 s3).
Qed.

Lemma name_desc_total (collate : string → string → bool) :
  (∀ a b, collate a b = true ∨ collate b a = true) → Total (name_desc collate).
Proof. intros Ht a b. unfold name_desc. destruct (Ht (tag_name a) (tag_name b)); auto. Qed.

Lemma name_desc_trans (collate : string → string → bool) :
  (∀ a b c, collate a b = true → collate b c = true → collate a c = true) →
  Transitive (name_desc collate).
Proof. intros Ht a b c Hab Hbc. unfold name_desc in *. by eapply Ht. Qed.

End OrderFacts.
Export OrderFacts.

(** ** The access-scoped query layer *)

Module ViewFacts.

Section Scoped.
Context {RD TD : Type}.
Variable rs : serializer_class → Serializer Recipe RD.
Variable ts : serializer_class → Serializer Tag TD.
Variable collate : string → string → bool.

Lemma elem_of_filter_user `{Model A} (u : option nat) (qs : list A) (a : A) :
  a ∈ filter_user u qs ↔ Some (owner a) = u ∧ a ∈ qs.
Proof. unfold filter_user. by rewrite list_elem_of_filter. Qed.

Lemma recipe_queryset_elem (req : Request RD) (db : Db) (r : Recipe) :
  r ∈ get_queryset (RecipeViewSet rs) req db ↔
  Some (recipe_user r) = request_user req ∧ r ∈ Recipe_objects db.
Proof.
  simpl. unfold order_by_id_desc. rewrite merge_sort_Permutation.
  exact (elem_of_filter_user (H:=Recipe_Model) _ _ r).
Qed.

Lemma tag_queryset_elem (req : Request TD) (db : Db) (t : Tag) :
  t ∈ get_queryset (TagViewSet ts collate) req db ↔
  Some (tag_user t) = request_user req ∧ t ∈ Tag_objects db.
Proof.
  simpl. unfold order_by_name_desc. rewrite merge_sort_Permutation.
  exact (elem_of_filter_user (H:=Tag_Model) _ _ t).
Qed.

Lemma get_pk_Some `{Model A} (k : nat) (qs : list A) (a : A) :
  get_pk k qs = Some a → a ∈ qs ∧ pk a = k.
Proof.
  unfold get_pk. destruct (list_find _ qs) as [[i x]|] eqn:Hf; simpl; [|done].
  intros [= ->]. apply list_find_Some in Hf as (Hl & Hp & _).
  split; [by eapply list_elem_of_lookup_2 | done].
Qed.

Lemma get_pk_None `{Model A} (k : nat) (qs : list A) :
  (∀ a, a ∈ qs → pk a ≠ k) → get_pk k qs = None.
Proof.
  intros Hall. unfold get_pk.
  destruct (list_find _ qs) as [[i x]|] eqn:Hf; [|done].
  apply list_find_Some in Hf as (Hl & Hp & _).
  exfalso. eapply Hall; [by eapply list_elem_of_lookup_2 | done].
Qed.

(** With an authenticated caller the permission check passes. *)
Lemma check_permissions_recipe (u : nat) (c : call RD) :
  check_permissions (RecipeViewSet rs) (mkRequest (Some u) c) = None.
Proof. reflexivity. Qed.

Lemma check_permissions_tag (u : nat) (c : call TD) :
  check_permissions (TagViewSet ts collate) (mkRequest (Some u) c) = None.
Proof. reflexivity. Qed.

(** A primary key none of whose rows belongs to the caller is not found. *)
Lemma recipe_get_object_404 (u k : nat) (c : call RD) (db : Db) :
  (∀ r, r ∈ Recipe_objects db → recipe_id r = k → recipe_user r ≠ u) →
  get_object (RecipeViewSet rs) (mkRequest (Some u) c) db k = inl Http404.
Proof.
  intros Hk. unfold get_object.
  rewrite (get_pk_None (H:=Recipe_Model)); [done|].
  intros r [Hu Hr]%recipe_queryset_elem Hpk. simpl in *.
  apply (Hk r Hr Hpk). congruence.
Qed.

Lemma tag_get_object_404 (u k : nat) (c : call TD) (db : Db) :
  (∀ t, t ∈ Tag_objects db → tag_id t = k → tag_user t ≠ u) →
  get_object (TagViewSet ts collate) (mkRequest (Some u) c) db k = inl Http404.
Proof.
  intros Hk. unfold get_object.
  rewrite (get_pk_None (H:=Tag_Model)); [done|].
  intros t [Hu Ht]%tag_queryset_elem Hpk. simpl in *.
  apply (Hk t Ht Hpk). congruence.
Qed.

(** Rows of a table with unique primary keys are determined by their key. *)
Lemma unique_pk `{Model A} (l : list A) (a b : A) :
  NoDup (pk <$> l) → a ∈ l → b ∈ l → pk a = pk b → a = b.
Proof.
  intros Hnd [i Hi]%list_elem_of_lookup [j Hj]%list_elem_of_lookup Hpk.
  assert (i = j) as ->.
  { eapply NoDup_lookup; [exact Hnd | |];
      rewrite list_lookup_fmap; [by rewrite Hi | by rewrite Hj, Hpk]. }
  congruence.
Qed.

End Scoped.

End ViewFacts.
Export ViewFacts.

(** ** Claims on the access-scoped views *)

Module AccessScope.

Lemma filter_user_Some `{Model A} (u : nat) (qs : list A) :
  filter_user (Some u) qs = filter (λ a, owner a = u) qs.
Proof.
  unfold filter_user. induction qs as [|a qs IH]; [done|].
  rewrite !filter_cons, IH.
  destruct (decide (Some (owner a) = Some u)) as [Heq|Hne],
    (decide (owner a = u)) as [Heq'|Hne']; try done.
  - by injection Heq.
  - by subst.
Qed.

Lemma recipe_list_response {RD} (rs : serializer_class → Serializer Recipe RD)
    (db : Db) (u : nat) :
  dispatch (RecipeViewSet rs) (mkRequest (Some u) List) db =
  (db, mkResponse HTTP_200_OK
         (Many RecipeSerializer
            (order_by_id_desc (filter_user (Some u) (Recipe_objects db))))).
Proof. reflexivity. Qed.

Lemma tag_list_response {TD} (ts : serializer_class → Serializer Tag TD)
    (collate : string → string → bool) (db : Db) (u : nat) :
  dispatch (TagViewSet ts collate) (mkRequest (Some u) List) db =
  (db, mkResponse HTTP_200_OK
         (Many TagSerializer
            (order_by_name_desc collate
               (filter_user (Some u) (Tag_objects db))))).
Proof. reflexivity. Qed.

Lemma recipe_retrieve_response {RD}
    (rs : serializer_class → Serializer Recipe RD) (db : Db) (u k : nat) :
  dispatch (RecipeViewSet rs) (mkRequest (Some u) (Retrieve k)) db =
  match get_object (RecipeViewSet rs) (mkRequest (Some u) (Retrieve k)) db k with
  | inr r => (db, mkResponse HTTP_200_OK (One RecipeDetailSerializer r))
  | inl e => (db, handle_exception (RecipeViewSet rs) e)
  end.
Proof.
  unfold dispatch, handler. simpl.
  by destruct (get_object _ _ _ _).
Qed.

(** C5: for an authenticated caller [u], listing the recipes answers 200,
    leaves the store as it is, and returns exactly the recipes whose owner
    is [u] (as a permutation of the owner's rows), sorted by descending
    id. *)
Theorem recipe_list_owned_desc_id {RD}
    (rs : serializer_class → Serializer Recipe RD) (db : Db) (u : nat) :
  let res := dispatch (RecipeViewSet rs) (mkRequest (Some u) List) db in
  res.1 = db ∧
  status_code res.2 = HTTP_200_OK ∧
  records (data res.2) ≡ₚ filter (λ r, recipe_user r = u) (Recipe_objects db) ∧
  StronglySorted (λ a b, (recipe_id b ≤ recipe_id a)%nat) (records (data res.2)).
Proof.
  rewrite recipe_list_response. simpl. repeat split.
  - unfold order_by_id_desc. rewrite merge_sort_Permutation.
    by rewrite (filter_user_Some (H:=Recipe_Model)).
  - exact (StronglySorted_merge_sort (id_desc (A:=Recipe)) _).
Qed.

(** C6: for an authenticated caller [u], listing the tags answers 200,
    leaves the store as it is, and returns exactly the tags whose owner is
    [u], sorted by name in reverse order of the database's string order,
    which is total and transitive. *)
Theorem tag_list_owned_desc_name {TD}
    (ts : serializer_class → Serializer Tag TD)
    (collate : string → string → bool) (db : Db) (u : nat) :
  (∀ a b, collate a b = true ∨ collate b a = true) →
  (∀ a b c, collate a b = true → collate b c = true → collate a c = true) →
  let res := dispatch (TagViewSet ts collate) (mkRequest (Some u) List) db in
  res.1 = db ∧
  status_code res.2 = HTTP_200_OK ∧
  records (data res.2) ≡ₚ filter (λ t, tag_user t = u) (Tag_objects db) ∧
  StronglySorted (λ a b, collate (tag_name b) (tag_name a) = true)
    (records (data res.2)).
Proof.
  intros Htot Htrans. rewrite tag_list_response. simpl. repeat split.
  - unfold order_by_name_desc. rewrite merge_sort_Permutation.
    by rewrite (filter_user_Some (H:=Tag_Model)).
  - pose proof (name_desc_total collate Htot).
    pose proof (name_desc_trans collate Htrans).
    exact (StronglySorted_merge_sort (name_desc collate) _).
Qed.

(** With strings compared character by character, user 1 of the sample
    store sees "breakfast", "Vegan", "Dinner", in that order. *)
Lemma tag_list_owned_desc_name_witness :
  let res := dispatch (TagViewSet Fixtures.tag_serializers String.leb)
               (mkRequest (Some 1) List) Fixtures.sample_db in
  records (data res.2)
    = [Fixtures.tag_breakfast; Fixtures.tag_vegan; Fixtures.tag_dinner] ∧
  StronglySorted (λ a b, String.leb (tag_name b) (tag_name a) = true)
    (records (data res.2)).
Proof.
  intros res. split; [vm_compute; reflexivity|].
  exact (proj2 (proj2 (proj2
    (tag_list_owned_desc_name Fixtures.tag_serializers String.leb
       Fixtures.sample_db 1 String.leb_total string_leb_trans)))).
Defined.

(** C1: for an authenticated caller [u], every recipe in the response of
    the recipe list and of a recipe detail, and every tag in the response of
    the tag list and of a tag detail, is owned by [u]. *)
Theorem visible_records_owned_by_caller {RD TD}
    (rs : serializer_class → Serializer Recipe RD)
    (ts : serializer_class → Serializer Tag TD)
    (collate : string → string → bool) (db : Db) (u k : nat) :
  Forall (λ r, recipe_user r = u)
    (records (data (dispatch (RecipeViewSet rs) (mkRequest (Some u) List) db).2)) ∧
  Forall (λ r, recipe_user r = u)
    (records (data (dispatch (RecipeViewSet rs)
                      (mkRequest (Some u) (Retrieve k)) db).2)) ∧
  Forall (λ t, tag_user t = u)
    (records (data (dispatch (TagViewSet ts collate) (mkRequest (Some u) List) db).2)) ∧
  Forall (λ t, tag_user t = u)
    (records (data (dispatch (TagViewSet ts collate)
                      (mkRequest (Some u) (Retrieve k)) db).2)).
Proof.
  split_and!.
  - rewrite recipe_list_response. simpl. apply Forall_forall.
    intros r Hr. apply (recipe_queryset_elem rs (mkRequest (Some u) List)) in Hr.
    simpl in Hr. destruct Hr as [Hr _]. congruence.
  - rewrite recipe_retrieve_response. unfold get_object.
    destruct (get_pk k _) as [r|] eqn:Hget; simpl; [|constructor].
    apply (get_pk_Some (H:=Recipe_Model)) in Hget as [Hr _].
    apply (recipe_queryset_elem rs (mkRequest (Some u) (Retrieve k))) in Hr.
    simpl in Hr. destruct Hr as [Hr _]. repeat constructor. congruence.
  - rewrite tag_list_response. simpl. apply Forall_forall.
    intros t Ht. apply (tag_queryset_elem ts collate (mkRequest (Some u) List)) in Ht.
    simpl in Ht. destruct Ht as [Ht _]. congruence.
  - simpl. constructor.
Qed.

(** C8: without an authenticated caller, every call on the recipe and on
    the tag view set answers 401 with an empty body and leaves the store as
    it is. *)
Theorem unauthenticated_is_401 {RD TD}
    (rs : serializer_class → Serializer Recipe RD)
    (ts : serializer_class → Serializer Tag TD)
    (collate : string → string → bool)
    (db : Db) (c : call RD) (c' : call TD) :
  dispatch (RecipeViewSet rs) (mkRequest None c) db =
    (db, mkResponse HTTP_401_UNAUTHORIZED NoData) ∧
  dispatch (TagViewSet ts collate) (mkRequest None c') db =
    (db, mkResponse HTTP_401_UNAUTHORIZED NoData).
Proof. split; reflexivity. Qed.

End AccessScope.

(** ** Claims on mutations of foreign rows *)

Module ForeignRows.

Section NotFound.
Context {RD TD : Type}.
Variable rs : serializer_class → Serializer Recipe RD.
Variable ts : serializer_class → Serializer Tag TD.
Variable collate : string → string → bool.

(** A mutation whose object lookup fails answers 404 and changes
    nothing. *)
Lemma recipe_mutation_404 (u k : nat) (c : call RD) (db : Db) :
  (∃ d, c = Update k d) ∨ (∃ d, c = PartialUpdate k d) ∨ c = Destroy k →
  get_object (RecipeViewSet rs) (mkRequest (Some u) c) db k = inl Http404 →
  dispatch (RecipeViewSet rs) (mkRequest (Some u) c) db =
    (db, mkResponse HTTP_404_NOT_FOUND NoData).
Proof.
  intros [[d ->]|[[d ->]| ->]] Hget;
    unfold dispatch, handler; simpl; simpl in Hget; by rewrite Hget.
Qed.

Lemma tag_mutation_404 (u k : nat) (c : call TD) (db : Db) :
  (∃ d, c = Update k d) ∨ (∃ d, c = PartialUpdate k d) ∨ c = Destroy k →
  get_object (TagViewSet ts collate) (mkRequest (Some u) c) db k = inl Http404 →
  dispatch (TagViewSet ts collate) (mkRequest (Some u) c) db =
    (db, mkResponse HTTP_404_NOT_FOUND NoData).
Proof.
  intros [[d ->]|[[d ->]| ->]] Hget;
    unfold dispatch, handler; simpl; simpl in Hget; by rewrite Hget.
Qed.
End NotFound.

(** C4: for a caller [u] and a recipe (or tag) of the store that another
    user owns, primary keys being unique, an update, a partial update and a
    delete of that id each answer 404 (so never 403) and leave the store,
    and with it the targeted row, as it was. *)
Theorem foreign_mutation_not_found {RD TD}
    (rs : serializer_class → Serializer Recipe RD)
    (ts : serializer_class → Serializer Tag TD)
    (collate : string → string → bool)
    (db : Db) (u : nat) (d : RD) (d' : TD) :
  (∀ r, NoDup (recipe_id <$> Recipe_objects db) →
        r ∈ Recipe_objects db → recipe_user r ≠ u →
        Forall (λ c,
            let res := dispatch (RecipeViewSet rs) (mkRequest (Some u) c) db in
            res = (db, mkResponse HTTP_404_NOT_FOUND NoData) ∧
            status_code res.2 ≠ HTTP_403_FORBIDDEN)
          [Update (recipe_id r) d; PartialUpdate (recipe_id r) d;
           Destroy (recipe_id r)]) ∧
  (∀ t, NoDup (tag_id <$> Tag_objects db) →
        t ∈ Tag_objects db → tag_user t ≠ u →
        Forall (λ c,
            let res := dispatch (TagViewSet ts collate) (mkRequest (Some u) c) db in
            res = (db, mkResponse HTTP_404_NOT_FOUND NoData) ∧
            status_code res.2 ≠ HTTP_403_FORBIDDEN)
          [Update (tag_id t) d'; PartialUpdate (tag_id t) d';
           Destroy (tag_id t)]).
Proof.
  split.
  - intros r Hnd Hr Hu.
    assert (∀ c, get_object (RecipeViewSet rs) (mkRequest (Some u) c) db
                   (recipe_id r) = inl Http404) as Hget.
    { intros c. apply recipe_get_object_404. intros r' Hr' Hpk.
      by rewrite (unique_pk (H:=Recipe_Model) _ r' r Hnd Hr' Hr Hpk). }
    assert (∀ c, (∃ d, c = Update (recipe_id r) d) ∨
                 (∃ d, c = PartialUpdate (recipe_id r) d) ∨
                 c = Destroy (recipe_id r) →
              let res := dispatch (RecipeViewSet rs) (mkRequest (Some u) c) db in
              res = (db, mkResponse HTTP_404_NOT_FOUND NoData) ∧
              status_code res.2 ≠ HTTP_403_FORBIDDEN) as Hall.
    { intros c Hc. simpl. by rewrite (recipe_mutation_404 rs u (recipe_id r)). }
    repeat (apply Forall_cons; split; [apply Hall; eauto|]).
    apply Forall_nil_2.
  - intros t Hnd Ht Hu.
    assert (∀ c, get_object (TagViewSet ts collate) (mkRequest (Some u) c) db
                   (tag_id t) = inl Http404) as Hget.
    { intros c. apply tag_get_object_404. intros t' Ht' Hpk.
      by rewrite (unique_pk (H:=Tag_Model) _ t' t Hnd Ht' Ht Hpk). }
    assert (∀ c, (∃ d, c = Update (tag_id t) d) ∨
                 (∃ d, c = PartialUpdate (tag_id t) d) ∨
                 c = Destroy (tag_id t) →
              let res := dispatch (TagViewSet ts collate) (mkRequest (Some u) c) db in
              res = (db, mkResponse HTTP_404_NOT_FOUND NoData) ∧
              status_code res.2 ≠ HTTP_403_FORBIDDEN) as Hall.
    { intros c Hc. simpl. by rewrite (tag_mutation_404 ts collate u (tag_id t)). }
    repeat (apply Forall_cons; split; [apply Hall; eauto|]).
    apply Forall_nil_2.
Qed.

(** User 1 deletes recipe 2 and tag 3 of user 2 in the sample store. *)
Lemma foreign_mutation_not_found_witness :
  dispatch (RecipeViewSet Fixtures.recipe_serializers)
      (mkRequest (Some 1) (Destroy 2)) Fixtures.sample_db =
    (Fixtures.sample_db, mkResponse HTTP_404_NOT_FOUND NoData) ∧
  dispatch (TagViewSet Fixtures.tag_serializers String.leb)
      (mkRequest (Some 1) (PartialUpdate 3 (mkTagData (Some "mine"))))
      Fixtures.sample_db =
    (Fixtures.sample_db, mkResponse HTTP_404_NOT_FOUND NoData).
Proof.
  destruct (foreign_mutation_not_found Fixtures.recipe_serializers
              Fixtures.tag_serializers String.leb Fixtures.sample_db 1
              Fixtures.no_fields (mkTagData (Some "mine"))) as [HR HT].
  split.
  - assert (NoDup (recipe_id <$> Recipe_objects Fixtures.sample_db)) as Hnd
      by (apply (bool_decide_unpack _); vm_compute; reflexivity).
    assert (Fixtures.recipe2 ∈ Recipe_objects Fixtures.sample_db) as Hin
      by (apply (bool_decide_unpack _); vm_compute; reflexivity).
    assert (recipe_user Fixtures.recipe2 ≠ 1) as Hne by (simpl; lia).
    pose proof (HR Fixtures.recipe2 Hnd Hin Hne) as HF.
    apply Forall_cons in HF as [_ HF]. apply Forall_cons in HF as [_ HF].
    apply Forall_cons in HF as [[HF _] _]. exact HF.
  - assert (NoDup (tag_id <$> Tag_objects Fixtures.sample_db)) as Hnd
      by (apply (bool_decide_unpack _); vm_compute; reflexivity).
    assert (Fixtures.tag_other ∈ Tag_objects Fixtures.sample_db) as Hin
      by (apply (bool_decide_unpack _); vm_compute; reflexivity).
    assert (tag_user Fixtures.tag_other ≠ 1) as Hne by (simpl; lia).
    pose proof (HT Fixtures.tag_other Hnd Hin Hne) as HF.
    apply Forall_cons in HF as [_ HF]. apply Forall_cons in HF as [[HF _] _].
    exact HF.
Defined.

End ForeignRows.

(** ** Claims on the user serializers *)

Module UserFacts.

Import UserSerializer.

Lemma save_save (u1 u2 : User) (db : Db) :
  user_id u1 = user_id u2 → save u2 (save u1 db) = save u2 db.
Proof.
  intros Hid. unfold save. simpl. f_equal. rewrite <-Hid.
  destruct (decide (user_id u1 ∈ user_id <$> User_objects db)) as [Hin|Hin].
  - assert (user_id <$> ((λ x, if decide (user_id x = user_id u1) then u1 else x)
                           <$> User_objects db) = user_id <$> User_objects db)
      as Hids.
    { rewrite <-list_fmap_compose. apply list_fmap_ext. intros i x _. simpl.
      by destruct (decide _). }
    rewrite Hids. rewrite decide_True by done.
    rewrite <-list_fmap_compose. apply list_fmap_ext. intros i x _. simpl.
    destruct (decide (user_id x = user_id u1)) as [Hx|Hx].
    + by rewrite decide_True.
    + by rewrite decide_False.
  - rewrite decide_True by (rewrite fmap_app; set_solver).
    rewrite fmap_app. simpl. rewrite decide_True by done. f_equal.
    rewrite <-(list_fmap_id (User_objects db)) at 2.
    apply list_fmap_ext. intros i x Hx. simpl.
    rewrite decide_False; [done|]. intros Heq. apply Hin.
    rewrite <-Heq. apply list_elem_of_fmap_2.
    by eapply list_elem_of_lookup_2.
Qed.

(** The loop of [ModelSerializer.update] sets the fields that the validated
    data names and keeps the others. *)
Lemma setattr_loop_fields (u : User) (vd : gmap string string) :
  let u' := map_fold (λ k v u, setattr u k v) u vd in
  user_id u' = user_id u ∧
  email u' = default (email u) (vd !! "email") ∧
  password u' = default (password u) (vd !! "password") ∧
  name u' = default (name u) (vd !! "name").
Proof.
  simpl.
  apply (map_fold_weak_ind
    (λ u' (m : gmap string string),
       user_id u' = user_id u ∧
       email u' = default (email u) (m !! "email") ∧
       password u' = default (password u) (m !! "password") ∧
       name u' = default (name u) (m !! "name"))).
  - by rewrite !lookup_empty.
  - intros k v m r Hk (Hi & He & Hp & Hn). unfold setattr.
    rewrite !lookup_insert.
    repeat case_decide; simplify_eq; simpl; try done.
Qed.

(** What [UserSerializer.update] returns and writes, field by field. *)
Lemma update_fields (make_password : string → string) (u : User)
    (vd : gmap string string) (db : Db) :
  let res := update make_password u vd db in
  res.1 = save res.2 db ∧
  user_id res.2 = user_id u ∧
  email res.2 = default (email u) (vd !! "email") ∧
  name res.2 = default (name u) (vd !! "name") ∧
  password res.2 =
    match vd !! "password" with
    | Some p => if decide (p = "") then password u else make_password p
    | None => password u
    end.
Proof.
  unfold update, super_update. simpl.
  destruct (setattr_loop_fields u (delete "password" vd)) as (Hi & He & Hp & Hn).
  rewrite lookup_delete_ne in He by done.
  rewrite lookup_delete_ne in Hn by done.
  rewrite lookup_delete_eq in Hp. simpl in Hp.
  destruct (vd !! "password") as [p|]; [destruct (decide (p = ""))|]; simpl;
    try done.
  split; [|done]. by apply save_save.
Qed.

Lemma save_frame (u : User) (db : Db) :
  Tag_objects (save u db) = Tag_objects db ∧
  Recipe_objects (save u db) = Recipe_objects db ∧
  recipe_tags (save u db) = recipe_tags db.
Proof. done. Qed.

Lemma save_user_ids (u : User) (db : Db) :
  user_id u ∈ user_id <$> User_objects db →
  user_id <$> User_objects (save u db) = user_id <$> User_objects db.
Proof.
  intros Hin. unfold save. simpl. rewrite decide_True by done.
  rewrite <-list_fmap_compose. apply list_fmap_ext. intros i x _. simpl.
  by destruct (decide _).
Qed.

Lemma save_other_rows (u x : User) (db : Db) :
  user_id x ≠ user_id u →
  x ∈ User_objects (save u db) ↔ x ∈ User_objects db.
Proof.
  intros Hne. unfold save. simpl.
  destruct (decide (user_id u ∈ user_id <$> User_objects db)).
  - rewrite list_elem_of_fmap. split.
    + intros (y & Hy & Hin). destruct (decide (user_id y = user_id u)); by subst.
    + intros Hin. exists x. by rewrite decide_False.
  - rewrite elem_of_app, list_elem_of_singleton. split; [|by left].
    intros [?| ->]; done.
Qed.

Lemma save_row (u : User) (db : Db) : u ∈ User_objects (save u db).
Proof.
  unfold save. simpl.
  destruct (decide (user_id u ∈ user_id <$> User_objects db)) as [Hin|Hin].
  - apply list_elem_of_fmap in Hin as (x & Hid & Hx).
    apply list_elem_of_fmap. exists x. by rewrite decide_True.
  - rewrite elem_of_app, list_elem_of_singleton. by right.
Qed.

(** Saving a row that the table already holds, keys being unique, changes
    nothing. *)
Lemma save_stored (u : User) (db : Db) :
  NoDup (user_id <$> User_objects db) → u ∈ User_objects db → save u db = db.
Proof.
  intros Hnd Hu. unfold save.
  rewrite decide_True by (by apply list_elem_of_fmap_2).
  destruct db as [us tg rc j]. simpl in *. f_equal.
  rewrite <-(list_fmap_id us) at 2. apply list_fmap_ext. intros i x Hx. simpl.
  destruct (decide (user_id x = user_id u)) as [Heq|]; [|done].
  apply list_elem_of_lookup in Hu as [k Hk].
  assert (i = k) as ->.
  { eapply NoDup_lookup; [exact Hnd | |];
      rewrite list_lookup_fmap; [by rewrite Hx | by rewrite Hk, Heq]. }
  congruence.
Qed.

(** After a save, the rows with the user's primary key are the user. *)
Lemma save_key_rows (u x : User) (db : Db) :
  x ∈ User_objects (save u db) → user_id x = user_id u → x = u.
Proof.
  unfold save. simpl.
  destruct (decide (user_id u ∈ user_id <$> User_objects db)) as [Hin|Hin].
  - intros (y & -> & Hy)%list_elem_of_fmap Hid.
    destruct (decide (user_id y = user_id u)); done.
  - rewrite elem_of_app, list_elem_of_singleton. intros [Hx| ->] Hid; [|done].
    exfalso. apply Hin. rewrite <-Hid. by apply list_elem_of_fmap_2.
Qed.

Lemma string_length_append (a b : string) :
  String.length (String.append a b) = (String.length a + String.length b)%nat.
Proof.
  induction a as [|c a IH]; [done|].
  change (String.append (String c a) b) with (String c (String.append a b)).
  simpl. by rewrite IH.
Qed.

(** C9: an update of a user changes the password only when the validated
    data supplies one, and then to the hash of the supplied password: a
    returned password that differs from the old one is the hash of a
    supplied, non-empty password, and a supplied non-empty password is
    always stored as its hash; without a password in the data the hash is
    the old one, while the supplied email and name are applied.  The store
    holds the returned user, and nothing else, under the user's key, and
    the rows of other users are as before; with a hasher that never returns
    its input, no row of the user holds the supplied password itself.  No
    representation of a user has a password key. *)
Theorem profile_update_password (make_password : string → string)
    (u : User) (vd : gmap string string) (db : Db) :
  let res := update make_password u vd db in
  (password res.2 ≠ password u →
   ∃ p, vd !! "password" = Some p ∧ p ≠ "" ∧
        password res.2 = make_password p) ∧
  (∀ p, vd !! "password" = Some p → p ≠ "" →
        password res.2 = make_password p) ∧
  (vd !! "password" = None → password res.2 = password u) ∧
  user_id res.2 = user_id u ∧
  email res.2 = default (email u) (vd !! "email") ∧
  name res.2 = default (name u) (vd !! "name") ∧
  res.2 ∈ User_objects res.1 ∧
  (∀ x, x ∈ User_objects res.1 → user_id x = user_id u → x = res.2) ∧
  (∀ x, user_id x ≠ user_id u →
        x ∈ User_objects res.1 ↔ x ∈ User_objects db) ∧
  ((∀ q, make_password q ≠ q) →
   ∀ p x, vd !! "password" = Some p → p ≠ "" →
          x ∈ User_objects res.1 → user_id x = user_id u → password x ≠ p) ∧
  (∀ v : User, "password" ∉ (to_representation v).*1).
Proof.
  destruct (update_fields make_password u vd db) as (Hs & Hi & He & Hn & Hp).
  simpl in *.
  assert (∀ x, x ∈ User_objects (update make_password u vd db).1 →
               user_id x = user_id u → x = (update make_password u vd db).2)
    as Hrows.
  { intros x Hx Hid. rewrite Hs in Hx.
    apply (save_key_rows _ x db Hx). by rewrite Hi. }
  split_and!; try done.
  - intros Hne. rewrite Hp in Hne |- *.
    destruct (vd !! "password") as [p|]; [|done].
    destruct (decide (p = "")); [done|]. by exists p.
  - intros p Hv Hne. rewrite Hp, Hv. by rewrite decide_False.
  - intros Hv. by rewrite Hp, Hv.
  - rewrite Hs. apply save_row.
  - intros x Hne. rewrite Hs. apply save_other_rows. by rewrite Hi.
  - intros Hhash p x Hv Hne Hx Hid. rewrite (Hrows x Hx Hid).
    rewrite Hp, Hv, decide_False by done. apply Hhash.
  - intros v. apply (bool_decide_unpack _). vm_compute. reflexivity.
Qed.

(** User 1 of the sample store changes name and password: the row of user
    1 in the store holds the new name and the hash, and not the password. *)
Lemma profile_update_password_witness :
  let vd : gmap string string := {[ "password" := "secret1"; "name" := "New" ]} in
  let res := update Fixtures.sample_hasher Fixtures.user1 vd
               Fixtures.sample_db in
  password res.2 = "pbkdf2$secret1" ∧ name res.2 = "New" ∧
  email res.2 = "user@example.com" ∧
  res.2 ∈ User_objects res.1 ∧
  (∀ x, x ∈ User_objects res.1 → user_id x = 1%nat → password x ≠ "secret1").
Proof.
  intros vd res. subst res.
  assert (vd !! "password" = Some "secret1") as Hv by (vm_compute; reflexivity).
  assert (vd !! "name" = Some "New") as Hname by (vm_compute; reflexivity).
  assert (vd !! "email" = None) as Hemail by (vm_compute; reflexivity).
  assert ("secret1" ≠ "") as Hne by discriminate.
  assert (∀ q, Fixtures.sample_hasher q ≠ q) as Hhash.
  { intros q Hq. apply (f_equal String.length) in Hq.
    unfold Fixtures.sample_hasher in Hq.
    rewrite string_length_append in Hq. simpl in Hq. lia. }
  pose proof (profile_update_password Fixtures.sample_hasher Fixtures.user1 vd
                Fixtures.sample_db) as H.
  cbv zeta in H.
  destruct H as (_ & Hset & _ & _ & He & Hn & Hin & _ & _ & Hplain & _).
  split_and!.
  - rewrite (Hset "secret1" Hv Hne). reflexivity.
  - rewrite Hn, Hname. reflexivity.
  - rewrite He, Hemail. reflexivity.
  - exact Hin.
  - intros x Hx Hid. exact (Hplain Hhash "secret1" x Hv Hne Hx Hid).
Defined.

Import AuthTokenSerializer.

(** C10: validation of a token request raises a validation error when the
    email is empty (or absent) or the password is [None]; otherwise it
    raises not-authenticated when the credential check finds no user, and
    returns the attributes with the user attached when it finds one; an
    empty-string password is handed to the credential check. *)
Theorem validate_token_request (authenticate : value → value → option User)
    (attrs : gmap string value) :
  let email := dict_get attrs "email" in
  let password := dict_get attrs "password" in
  (truthy email = false ∨ password = VNone →
   validate authenticate attrs = inl ValidationError) ∧
  (truthy email = true → password ≠ VNone →
   authenticate email password = None →
   validate authenticate attrs = inl NotAuthenticated) ∧
  (∀ user, truthy email = true → password ≠ VNone →
   authenticate email password = Some user →
   validate authenticate attrs = inr (<["user" := VUser user]> attrs)) ∧
  (truthy email = true → password = VStr "" →
   validate authenticate attrs =
     match authenticate email (VStr "") with
     | None => inl NotAuthenticated
     | Some user => inr (<["user" := VUser user]> attrs)
     end).
Proof.
  simpl. unfold validate. split_and!.
  - intros [He| ->].
    + by rewrite He.
    + rewrite bool_decide_eq_true_2 by done. by rewrite orb_true_r.
  - intros He Hp Ha. rewrite He, bool_decide_eq_false_2 by done. simpl.
    by rewrite Ha.
  - intros user He Hp Ha. rewrite He, bool_decide_eq_false_2 by done. simpl.
    by rewrite Ha.
  - intros He Hp. rewrite He, Hp. by rewrite bool_decide_eq_false_2.
Qed.

(** A credential check that knows user 1 by the password "testpass123":
    the right password attaches the user, the empty password reaches the
    check and is refused by it, and a missing password is a validation
    error. *)
Lemma validate_token_request_witness :
  let authenticate e p :=
    if decide (e = VStr "user@example.com" ∧ p = VStr "testpass123")
    then Some Fixtures.user1 else None in
  validate authenticate
    {[ "email" := VStr "user@example.com"; "password" := VStr "testpass123" ]}
  = inr (<["user" := VUser Fixtures.user1]>
           {[ "email" := VStr "user@example.com";
              "password" := VStr "testpass123" ]}) ∧
  validate authenticate
    {[ "email" := VStr "user@example.com"; "password" := VStr "" ]}
  = inl NotAuthenticated ∧
  validate authenticate {[ "email" := VStr "user@example.com" ]}
  = inl ValidationError.
Proof.
  intros authenticate. split_and!.
  - destruct (validate_token_request authenticate
      {[ "email" := VStr "user@example.com"; "password" := VStr "testpass123" ]})
      as (_ & _ & H & _).
    apply H; [reflexivity | discriminate | reflexivity].
  - destruct (validate_token_request authenticate
      {[ "email" := VStr "user@example.com"; "password" := VStr "" ]})
      as (_ & H & _ & _).
    apply H; [reflexivity | discriminate | reflexivity].
  - destruct (validate_token_request authenticate
      {[ "email" := VStr "user@example.com" ]}) as (H & _).
    apply H. right. reflexivity.
Defined.

End UserFacts.

(** ** Claims on the tag reconciler and the recipe store *)

Module ReconcilerFacts.

Local Open Scope list_scope.

Lemma elem_of_tag_ids_of (db : Db) (rid i : nat) :
  i ∈ tag_ids_of db rid ↔ (rid, i) ∈ recipe_tags db.
Proof.
  unfold tag_ids_of. rewrite elem_of_map. split.
  - intros ([a b] & -> & [Ha Hin]%elem_of_filter). simpl in *. by subst.
  - intros Hin. exists (rid, i). split; [done|]. by apply elem_of_filter.
Qed.

Lemma tag_ids_of_set_tags (rid : nat) (ids : gset nat) (db : Db) :
  tag_ids_of (set_tags rid ids db) rid = ids.
Proof.
  apply set_eq. intros i. rewrite elem_of_tag_ids_of. simpl.
  rewrite elem_of_union, elem_of_filter, elem_of_map. simpl. split.
  - intros [[Hne _]|(j & [= ->] & Hj)]; done.
  - intros Hi. right. by exists i.
Qed.

Lemma tag_ids_of_set_tags_ne (rid rid' : nat) (ids : gset nat) (db : Db) :
  rid' ≠ rid → tag_ids_of (set_tags rid ids db) rid' = tag_ids_of db rid'.
Proof.
  intros Hne. apply set_eq. intros i. rewrite !elem_of_tag_ids_of. simpl.
  rewrite elem_of_union, elem_of_filter, elem_of_map. simpl. split.
  - intros [[_ Hin]|(j & [= -> ->] & Hj)]; done.
  - intros Hin. by left.
Qed.

Lemma set_tags_idemp (rid : nat) (ids : gset nat) (db : Db) :
  set_tags rid ids (set_tags rid ids db) = set_tags rid ids db.
Proof.
  unfold set_tags. simpl. f_equal. apply set_eq. intros [a b].
  rewrite !elem_of_union, !elem_of_filter, !elem_of_union, !elem_of_filter,
    !elem_of_map. simpl. tauto.
Qed.

(** A lookup that succeeds names a stored tag with the requested key. *)
Lemma lookup_tag_Some (owner : nat) (n : string) (ts : list Tag) (t : Tag) :
  lookup_tag owner n ts = Some t →
  t ∈ ts ∧ tag_user t = owner ∧ tag_name t = n.
Proof.
  unfold lookup_tag.
  destruct (list_find _ ts) as [[i x]|] eqn:Hf; simpl; [|done].
  intros [= ->]. apply list_find_Some in Hf as (Hl & [Hu Hn] & _).
  split; [by eapply list_elem_of_lookup_2 | done].
Qed.

Lemma lookup_tag_None (owner : nat) (n : string) (ts : list Tag) :
  lookup_tag owner n ts = None → (n, owner) ∉ tag_key <$> ts.
Proof.
  unfold lookup_tag.
  destruct (list_find _ ts) as [[i x]|] eqn:Hf; simpl; [done|].
  intros _ (t & Hk & Ht)%list_elem_of_fmap.
  apply list_find_None in Hf. rewrite Forall_forall in Hf.
  apply (Hf t Ht). unfold tag_key in Hk. by injection Hk as -> ->.
Qed.

(** Rows appended to the table do not change a lookup that succeeds. *)
Lemma lookup_tag_app (owner : nat) (n : string) (ts ext : list Tag) (t : Tag) :
  lookup_tag owner n ts = Some t → lookup_tag owner n (ts ++ ext) = Some t.
Proof.
  unfold lookup_tag.
  destruct (list_find _ ts) as [[i x]|] eqn:Hf; simpl; [|done].
  intros [= ->]. by rewrite (list_find_app_l _ _ _ _ _ Hf).
Qed.

(** A created tag is found by the next lookup of its key. *)
Lemma lookup_tag_snoc (owner : nat) (n : string) (ts : list Tag) (i : nat) :
  lookup_tag owner n ts = None →
  lookup_tag owner n (ts ++ [mkTag i n owner]) = Some (mkTag i n owner).
Proof.
  unfold lookup_tag.
  destruct (list_find _ ts) as [[j x]|] eqn:Hf; simpl; [done|]. intros _.
  rewrite list_find_app_r by done. simpl.
  by rewrite decide_True.
Qed.

(** What get-or-create does to the store. *)
Lemma get_or_create_tag_spec (owner : nat) (n : string) (db db' : Db) (t : Tag) :
  get_or_create_tag owner n db = (db', t) →
  (∃ ext, Tag_objects db' = Tag_objects db ++ ext) ∧
  User_objects db' = User_objects db ∧
  Recipe_objects db' = Recipe_objects db ∧
  recipe_tags db' = recipe_tags db ∧
  lookup_tag owner n (Tag_objects db') = Some t.
Proof.
  unfold get_or_create_tag.
  destruct (lookup_tag owner n (Tag_objects db)) as [t0|] eqn:Hl;
    intros [= <- <-]; simpl.
  - split_and!; try done. exists []. by rewrite app_nil_r.
  - split_and!; try done; [by eexists | by apply lookup_tag_snoc].
Qed.

Lemma get_or_create_tag_found (owner : nat) (n : string) (db : Db) (t : Tag) :
  lookup_tag owner n (Tag_objects db) = Some t →
  get_or_create_tag owner n db = (db, t).
Proof. intros Hl. unfold get_or_create_tag. by rewrite Hl. Qed.

(** Resolution only appends to the tag table. *)
Lemma resolve_tags_frame (owner : nat) (names : list string) (db db' : Db)
    (ts : list Tag) :
  resolve_tags owner names db = (db', ts) →
  (∃ ext, Tag_objects db' = Tag_objects db ++ ext) ∧
  User_objects db' = User_objects db ∧
  Recipe_objects db' = Recipe_objects db ∧
  recipe_tags db' = recipe_tags db.
Proof.
  revert db db' ts. induction names as [|n names IH]; intros db db' ts; simpl.
  - intros [= <- <-]. split_and!; try done. exists []. by rewrite app_nil_r.
  - destruct (get_or_create_tag owner n db) as [db1 t] eqn:Hg.
    destruct (resolve_tags owner names db1) as [db2 ts'] eqn:Hr.
    intros [= <- <-].
    apply get_or_create_tag_spec in Hg as ([e1 He1] & Hu1 & Hr1 & Hj1 & _).
    apply IH in Hr as ([e2 He2] & Hu2 & Hr2 & Hj2).
    split_and!; try congruence.
    exists (e1 ++ e2). by rewrite He2, He1, app_assoc.
Qed.

(** Each requested name is resolved, in order, to a stored tag of the owner
    with that name. *)
Lemma resolve_tags_names (owner : nat) (names : list string) (db db' : Db)
    (ts : list Tag) :
  resolve_tags owner names db = (db', ts) →
  Forall2 (λ n t, tag_name t = n ∧ tag_user t = owner ∧ t ∈ Tag_objects db')
    names ts.
Proof.
  revert db db' ts. induction names as [|n names IH]; intros db db' ts; simpl.
  - intros [= <- <-]. constructor.
  - destruct (get_or_create_tag owner n db) as [db1 t] eqn:Hg.
    destruct (resolve_tags owner names db1) as [db2 ts'] eqn:Hr.
    intros [= <- <-].
    apply get_or_create_tag_spec in Hg as (_ & _ & _ & _ & Hl).
    apply lookup_tag_Some in Hl as (Hin & Hu & Hn).
    pose proof (resolve_tags_frame _ _ _ _ _ Hr) as ([e He] & _).
    constructor; [|by eapply IH].
    split_and!; try done. rewrite He. set_solver.
Qed.

(** Resolving the same names again, in the store that the first resolution
    left (or one with more tags appended), finds the same tags and creates
    nothing. *)
Lemma resolve_tags_stable (owner : nat) (names : list string) (db db' : Db)
    (ts : list Tag) :
  resolve_tags owner names db = (db', ts) →
  ∀ dbx ext, Tag_objects dbx = Tag_objects db' ++ ext →
    resolve_tags owner names dbx = (dbx, ts).
Proof.
  revert db db' ts. induction names as [|n names IH]; intros db db' ts; simpl.
  - by intros [= <- <-].
  - destruct (get_or_create_tag owner n db) as [db1 t] eqn:Hg.
    destruct (resolve_tags owner names db1) as [db2 ts'] eqn:Hr.
    intros [= <- <-] dbx ext Hx.
    apply get_or_create_tag_spec in Hg as (_ & _ & _ & _ & Hl).
    pose proof (resolve_tags_frame _ _ _ _ _ Hr) as ([e He] & _).
    rewrite (get_or_create_tag_found owner n dbx t).
    + by rewrite (IH _ _ _ Hr dbx ext Hx).
    + rewrite Hx, He, <-app_assoc. by apply lookup_tag_app.
Qed.

(** Resolution creates no second tag with a key that is already stored. *)
Lemma resolve_tags_NoDup (owner : nat) (names : list string) (db db' : Db)
    (ts : list Tag) :
  resolve_tags owner names db = (db', ts) →
  NoDup (tag_key <$> Tag_objects db) → NoDup (tag_key <$> Tag_objects db').
Proof.
  revert db db' ts. induction names as [|n names IH]; intros db db' ts; simpl.
  - by intros [= <- <-].
  - destruct (get_or_create_tag owner n db) as [db1 t] eqn:Hg.
    destruct (resolve_tags owner names db1) as [db2 ts'] eqn:Hr.
    intros [= <- <-] Hnd. eapply IH; [exact Hr|].
    unfold get_or_create_tag in Hg.
    destruct (lookup_tag owner n (Tag_objects db)) as [t0|] eqn:Hl;
      injection Hg as <- <-; simpl; [done|].
    rewrite fmap_app. apply NoDup_app. split_and!; [done| |].
    + intros k Hk Hk'. simpl in Hk'. apply list_elem_of_singleton in Hk'.
      subst k. by apply lookup_tag_None in Hl.
    + simpl. apply NoDup_singleton.
Qed.

(** A requested name with a stored tag of the owner resolves to that tag. *)
Lemma resolve_tags_existing (owner : nat) (names : list string) (db db' : Db)
    (ts : list Tag) (n : string) (t : Tag) :
  resolve_tags owner names db = (db', ts) →
  n ∈ names → lookup_tag owner n (Tag_objects db) = Some t → t ∈ ts.
Proof.
  revert db db' ts. induction names as [|m names IH]; intros db db' ts; simpl.
  - intros _ Hin. by apply not_elem_of_nil in Hin.
  - destruct (get_or_create_tag owner m db) as [db1 t1] eqn:Hg.
    destruct (resolve_tags owner names db1) as [db2 ts'] eqn:Hr.
    intros [= <- <-] Hin Hl.
    apply elem_of_cons in Hin as [->|Hin].
    + rewrite (get_or_create_tag_found _ _ _ _ Hl) in Hg.
      injection Hg as <- <-. set_solver.
    + apply elem_of_cons. right. eapply IH; [exact Hr|done|].
      apply get_or_create_tag_spec in Hg as ([e He] & _).
      rewrite He. by apply lookup_tag_app.
Qed.

(** When every requested name is stored, resolution creates nothing. *)
Lemma resolve_tags_all_existing (owner : nat) (names : list string) (db : Db) :
  Forall (λ n, is_Some (lookup_tag owner n (Tag_objects db))) names →
  (resolve_tags owner names db).1 = db.
Proof.
  induction 1 as [|n names [t Ht] _ IH]; simpl; [done|].
  rewrite (get_or_create_tag_found _ _ _ _ Ht).
  destruct (resolve_tags owner names db) as [db2 ts'] eqn:Hr. simpl in *.
  by subst.
Qed.

(** C2: after the reconciliation of a recipe with a requested list of
    names, the recipe's tag set is exactly the set of the resolved tags, one
    stored tag of the owner per requested name; the tag records that were
    stored are all kept and the tag sets of other recipes are unchanged; an
    empty list leaves the recipe without tags and the tag table as it was;
    and an update that supplies a tags field ends with that tag set. *)
Theorem reconcile_tags_exact (r : Recipe) (owner : nat) (names : list string)
    (db : Db) :
  let resolved := (resolve_tags owner names db).2 in
  let db' := reconcile_tags r owner names db in
  tag_ids_of db' (recipe_id r) = list_to_set (tag_id <$> resolved) ∧
  Forall2 (λ n t, tag_name t = n ∧ tag_user t = owner ∧ t ∈ Tag_objects db')
    names resolved ∧
  (∃ new, Tag_objects db' = Tag_objects db ++ new) ∧
  (∀ rid, rid ≠ recipe_id r → tag_ids_of db' rid = tag_ids_of db rid) ∧
  tag_ids_of (reconcile_tags r owner [] db) (recipe_id r) = ∅ ∧
  Tag_objects (reconcile_tags r owner [] db) = Tag_objects db ∧
  (∀ d, data_tags d = Some names →
        tag_ids_of (update_recipe owner r d db).1 (recipe_id r)
          = list_to_set (tag_id <$> resolved) ∧
        Tag_objects (update_recipe owner r d db).1 = Tag_objects db').
Proof.
  simpl. unfold update_recipe, reconcile_tags.
  destruct (resolve_tags owner names db) as [db1 ts] eqn:Hr. simpl.
  pose proof (resolve_tags_frame _ _ _ _ _ Hr) as ([e He] & _ & _ & Hj).
  split_and!.
  - apply tag_ids_of_set_tags.
  - by apply (resolve_tags_names _ _ _ _ _ Hr).
  - by exists e.
  - intros rid Hne. rewrite tag_ids_of_set_tags_ne by done.
    apply set_eq. intros i. by rewrite !elem_of_tag_ids_of, Hj.
  - apply tag_ids_of_set_tags.
  - done.
  - intros d ->. rewrite Hr. split; [|done].
    apply set_eq. intros i. rewrite elem_of_tag_ids_of. simpl.
    by rewrite <-(tag_ids_of_set_tags (recipe_id r) _ db1) at 2;
      rewrite elem_of_tag_ids_of.
Qed.

(** Recipe 1 of the sample store, which carries two tags, is patched with
    an empty tags list. *)
Lemma reconcile_tags_exact_witness :
  let d := mkRecipeData None None None None None (Some []) in
  tag_ids_of (update_recipe 1 Fixtures.recipe1 d Fixtures.sample_db).1 1 = ∅ ∧
  Tag_objects (update_recipe 1 Fixtures.recipe1 d Fixtures.sample_db).1
    = Tag_objects Fixtures.sample_db.
Proof.
  intros d.
  destruct (reconcile_tags_exact Fixtures.recipe1 1 [] Fixtures.sample_db)
    as (_ & _ & _ & _ & _ & _ & Hupd).
  destruct (Hupd d eq_refl) as [Hids Htags]. split.
  - exact Hids.
  - exact Htags.
Defined.

(** C3: reconciling a recipe again with the same names, in the store that
    the first reconciliation left, changes nothing: the store, and so the
    tag table and the recipe's tag set, is the same; a tag table without
    two tags of the same name and owner stays so; a requested name that has
    a stored tag of the owner is resolved to that tag, which is attached,
    and no tag is created for it. *)
Theorem reconcile_tags_idempotent (r : Recipe) (owner : nat)
    (names : list string) (db : Db) :
  let db' := reconcile_tags r owner names db in
  reconcile_tags r owner names db' = db' ∧
  (NoDup (tag_key <$> Tag_objects db) → NoDup (tag_key <$> Tag_objects db')) ∧
  (∀ n t, n ∈ names → lookup_tag owner n (Tag_objects db) = Some t →
          get_or_create_tag owner n db = (db, t) ∧
          tag_id t ∈ tag_ids_of db' (recipe_id r)) ∧
  (Forall (λ n, is_Some (lookup_tag owner n (Tag_objects db))) names →
   Tag_objects db' = Tag_objects db).
Proof.
  simpl. unfold reconcile_tags.
  destruct (resolve_tags owner names db) as [db1 ts] eqn:Hr.
  split_and!.
  - rewrite (resolve_tags_stable _ _ _ _ _ Hr
               (set_tags (recipe_id r) (list_to_set (tag_id <$> ts)) db1) []).
    + apply set_tags_idemp.
    + simpl. by rewrite app_nil_r.
  - simpl. by apply (resolve_tags_NoDup _ _ _ _ _ Hr).
  - intros n t Hn Hl. split; [by apply get_or_create_tag_found|].
    rewrite tag_ids_of_set_tags. apply elem_of_list_to_set.
    apply list_elem_of_fmap_2. by eapply resolve_tags_existing.
  - intros Hall. apply resolve_tags_all_existing in Hall.
    rewrite Hr in Hall. simpl in *. by subst.
Qed.

(** User 1 asks for "Vegan", which is stored, and "Indian", which is not:
    tag 1 is attached, and "Vegan" is not created a second time. *)
Lemma reconcile_tags_idempotent_witness :
  let db' := reconcile_tags Fixtures.recipe3 1 ["Vegan"; "Indian"]
               Fixtures.sample_db in
  reconcile_tags Fixtures.recipe3 1 ["Vegan"; "Indian"] db' = db' ∧
  NoDup (tag_key <$> Tag_objects db') ∧
  1 ∈ tag_ids_of db' 3.
Proof.
  intros db'.
  destruct (reconcile_tags_idempotent Fixtures.recipe3 1 ["Vegan"; "Indian"]
              Fixtures.sample_db) as (Hidem & Hnd & Hex & _).
  split_and!.
  - exact Hidem.
  - apply Hnd. apply (bool_decide_unpack _). vm_compute. reflexivity.
  - apply (Hex "Vegan" Fixtures.tag_vegan).
    + apply (bool_decide_unpack _). vm_compute. reflexivity.
    + vm_compute. reflexivity.
Defined.

(** C7: a partial update of a recipe by its owner returns the recipe with
    each supplied field set and each field that the body does not supply
    kept, id and owner included; it writes that row in place of the old
    one and touches no other row; and when the body has no tags field the
    recipe-tag relation and the tag table are unchanged.  For another
    owner it fails with not-found. *)
Theorem partial_update_frame (r : Recipe) (owner : nat) (d : RecipeData)
    (db : Db) :
  (recipe_user r = owner →
   ∃ db' r',
     partial_update r owner d db = inr (db', r') ∧
     recipe_id r' = recipe_id r ∧
     recipe_user r' = recipe_user r ∧
     title r' = default (title r) (data_title d) ∧
     time_minutes r' = default (time_minutes r) (data_time_minutes d) ∧
     price r' = default (price r) (data_price d) ∧
     description r' = default (description r) (data_description d) ∧
     link r' = default (link r) (data_link d) ∧
     (data_tags d = None →
      recipe_tags db' = recipe_tags db ∧ Tag_objects db' = Tag_objects db) ∧
     User_objects db' = User_objects db ∧
     Recipe_objects db' =
       (λ x, if decide (recipe_id x = recipe_id r) then r' else x)
         <$> Recipe_objects db) ∧
  (recipe_user r ≠ owner → partial_update r owner d db = inl Http404).
Proof.
  unfold partial_update. split.
  - intros Ho. rewrite decide_True by done.
    unfold update_recipe. eexists _, _. split; [reflexivity|].
    split_and!; try done.
    + by intros ->.
    + simpl. destruct (data_tags d) as [names|]; [|done].
      unfold reconcile_tags.
      destruct (resolve_tags owner names db) as [db1 ts] eqn:Hr. simpl.
      by pose proof (resolve_tags_frame _ _ _ _ _ Hr) as (_ & Hu & _).
    + simpl. destruct (data_tags d) as [names|]; [|done].
      unfold reconcile_tags.
      destruct (resolve_tags owner names db) as [db1 ts] eqn:Hr. simpl.
      pose proof (resolve_tags_frame _ _ _ _ _ Hr) as (_ & _ & HR & _).
      by rewrite HR.
  - intros Ho. by rewrite decide_False.
Qed.

(** The owner of recipe 3 of the sample store patches its title only. *)
Lemma partial_update_frame_witness :
  let d := mkRecipeData (Some "new title") None None None None None in
  ∃ db' r',
    partial_update Fixtures.recipe3 1 d Fixtures.sample_db = inr (db', r') ∧
    title r' = "new title"%string ∧
    link r' = "https://www.examplerecipe.com"%string ∧
    recipe_tags db' = recipe_tags Fixtures.sample_db.
Proof.
  intros d.
  destruct (partial_update_frame Fixtures.recipe3 1 d Fixtures.sample_db)
    as [Hown _].
  destruct (Hown eq_refl)
    as (db' & r' & Hres & _ & _ & Ht & _ & _ & _ & Hl & Htags & _).
  exists db', r'. split_and!.
  - exact Hres.
  - exact Ht.
  - exact Hl.
  - exact (proj1 (Htags eq_refl)).
Defined.

End ReconcilerFacts.

(** ** The view sets over the modelled serializers *)

Module EndToEnd.

Import Fixtures.

(** A partial update of the caller's own recipe through the view is the
    update of the recipe store. *)
Lemma own_recipe_partial_update (valid : bool → Db → RecipeData → bool)
    (db : Db) (u : nat) (r : Recipe) (d : RecipeData) :
  NoDup (recipe_id <$> Recipe_objects db) →
  r ∈ Recipe_objects db → recipe_user r = u → valid true db d = true →
  dispatch (RecipeViewSet (recipe_serializer valid))
    (mkRequest (Some u) (PartialUpdate (recipe_id r) d)) db =
  ((update_recipe u r d db).1,
   mkResponse HTTP_200_OK (One RecipeDetailSerializer (update_recipe u r d db).2)).
Proof.
  intros Hnd Hr Hu Hv. unfold dispatch, handler. simpl.
  unfold get_object.
  set (req := mkRequest (Some u) (PartialUpdate (recipe_id r) d)).
  assert (r ∈ get_queryset (RecipeViewSet (recipe_serializer valid)) req db)
    as Hq by (apply recipe_queryset_elem; simpl; by subst).
  destruct (get_pk (recipe_id r) _) as [r0|] eqn:Hget.
  - apply (get_pk_Some (H:=Recipe_Model)) in Hget as [Hr0 Hk].
    apply recipe_queryset_elem in Hr0 as [_ Hr0].
    assert (r0 = r) as -> by (by eapply (unique_pk (H:=Recipe_Model))).
    simpl. by rewrite Hv.
  - exfalso. unfold get_pk in Hget.
    destruct (list_find _ _) as [[i x]|] eqn:Hf; [done|].
    apply list_find_None in Hf. rewrite Forall_forall in Hf.
    by apply (Hf r Hq).
Qed.

(** [test_login_required] *)
Example test_login_required :
  (dispatch (RecipeViewSet recipe_serializers) (mkRequest None List) sample_db).2
  = mkResponse HTTP_401_UNAUTHORIZED NoData.
Proof. reflexivity. Qed.

(** [test_recipes_limited_to_user] *)
Example test_recipes_limited_to_user :
  (dispatch (RecipeViewSet recipe_serializers) (mkRequest (Some 1) List)
     sample_db).2
  = mkResponse HTTP_200_OK (Many RecipeSerializer [recipe3; recipe1]).
Proof. vm_compute. reflexivity. Qed.

(** [test_get_recipe_detail], and the detail of another user's recipe *)
Example test_get_recipe_detail :
  (dispatch (RecipeViewSet recipe_serializers) (mkRequest (Some 1) (Retrieve 3))
     sample_db).2
  = mkResponse HTTP_200_OK (One RecipeDetailSerializer recipe3) ∧
  (dispatch (RecipeViewSet recipe_serializers) (mkRequest (Some 1) (Retrieve 2))
     sample_db).2
  = mkResponse HTTP_404_NOT_FOUND NoData.
Proof. split; vm_compute; reflexivity. Qed.

(** [test_partial_update_recipe] *)
Example test_partial_update_recipe :
  let d := mkRecipeData (Some "new title") None None None None None in
  let res := dispatch (RecipeViewSet recipe_serializers)
               (mkRequest (Some 1) (PartialUpdate 3 d)) sample_db in
  res.2 = mkResponse HTTP_200_OK
            (One RecipeDetailSerializer
               (mkRecipe 3 1 "new title" 22 525 "This is a test recipe"
                         "https://www.examplerecipe.com")) ∧
  Recipe_objects res.1
  = [recipe1; recipe2;
     mkRecipe 3 1 "new title" 22 525 "This is a test recipe"
              "https://www.examplerecipe.com"].
Proof. split; vm_compute; reflexivity. Qed.

(** [test_create_recipe_with_existing_tags]: "Vegan" is reused, "Healthy"
    is created. *)
Example test_create_recipe_with_existing_tags :
  let d := mkRecipeData (Some "Sample Recipe") (Some 10) (Some 350%Z)
             (Some "This is a sample recipe")
             (Some "https://www.examplerecipe.com")
             (Some ["Vegan"; "Healthy"]) in
  let res := dispatch (RecipeViewSet recipe_serializers)
               (mkRequest (Some 1) (Create d)) sample_db in
  status_code res.2 = HTTP_201_CREATED ∧
  Tag_objects res.1
  = [tag_vegan; tag_dinner; tag_other; tag_breakfast; mkTag 5 "Healthy" 1] ∧
  elements (tag_ids_of res.1 4) ≡ₚ [1; 5].
Proof.
  split_and!; [vm_compute; reflexivity ..|].
  apply (bool_decide_unpack _). vm_compute. reflexivity.
Qed.

(** [test_clear_recipe_tags] *)
Example test_clear_recipe_tags :
  let d := mkRecipeData None None None None None (Some []) in
  let res := dispatch (RecipeViewSet recipe_serializers)
               (mkRequest (Some 1) (PartialUpdate 1 d)) sample_db in
  status_code res.2 = HTTP_200_OK ∧
  elements (tag_ids_of res.1 1) = [] ∧
  Tag_objects res.1 = Tag_objects sample_db.
Proof. split_and!; vm_compute; reflexivity. Qed.

(** [test_delete_tag], and the same call by a user who does not own the
    tag *)
Example test_delete_tag :
  let own := dispatch (TagViewSet tag_serializers String.leb)
               (mkRequest (Some 1) (Destroy 4)) sample_db in
  let foreign := dispatch (TagViewSet tag_serializers String.leb)
                   (mkRequest (Some 2) (Destroy 4)) sample_db in
  status_code own.2 = HTTP_204_NO_CONTENT ∧
  Tag_objects own.1 = [tag_vegan; tag_dinner; tag_other] ∧
  elements (tag_ids_of own.1 1) = [1] ∧
  status_code foreign.2 = HTTP_404_NOT_FOUND ∧
  Tag_objects foreign.1 = Tag_objects sample_db.
Proof. split_and!; vm_compute; reflexivity. Qed.

(** [UserSerializer.update] called with an empty password, which validation
    would have refused: the truth test skips [set_password]. *)
Example update_empty_password :
  (UserSerializer.update sample_hasher user1
     {[ "password" := ""; "name" := "New" ]} sample_db).2
  = mkUser 1 "user@example.com" "pbkdf2$testpass123" "New".
Proof. vm_compute. reflexivity. Qed.

End EndToEnd.

(** ** Further properties of the view sets *)

Module ViewSetFacts.

Import AccessScope.

Local Open Scope list_scope.

Section OwnRows.
Context {RD TD : Type}.
Variable rs : serializer_class → Serializer Recipe RD.
Variable ts : serializer_class → Serializer Tag TD.
Variable collate : string → string → bool.

(** In a table with unique primary keys, a row of the queryset is the one
    that a lookup of its key finds. *)
Lemma get_pk_unique `{Model A} (l qs : list A) (a : A) :
  NoDup (pk <$> l) → (∀ x, x ∈ qs → x ∈ l) → a ∈ qs →
  get_pk (pk a) qs = Some a.
Proof.
  intros Hnd Hsub Ha. destruct (get_pk (pk a) qs) as [b|] eqn:Hget.
  - apply get_pk_Some in Hget as [Hb Hk]. f_equal.
    eapply unique_pk; eauto.
  - exfalso. unfold get_pk in Hget.
    destruct (list_find _ qs) as [[i x]|] eqn:Hf; [done|].
    apply list_find_None in Hf. rewrite Forall_forall in Hf.
    by apply (Hf a Ha).
Qed.

Lemma own_recipe_get_object (db : Db) (u : nat) (r : Recipe) (c : call RD) :
  NoDup (recipe_id <$> Recipe_objects db) →
  r ∈ Recipe_objects db → recipe_user r = u →
  get_object (RecipeViewSet rs) (mkRequest (Some u) c) db (recipe_id r) = inr r.
Proof.
  intros Hnd Hr Hu. unfold get_object.
  rewrite (get_pk_unique (H:=Recipe_Model) (Recipe_objects db) _ r); try done.
  - intros x Hx. by apply recipe_queryset_elem in Hx as [_ Hx].
  - apply recipe_queryset_elem. simpl. by subst.
Qed.

Lemma own_tag_get_object (db : Db) (u : nat) (t : Tag) (c : call TD) :
  NoDup (tag_id <$> Tag_objects db) →
  t ∈ Tag_objects db → tag_user t = u →
  get_object (TagViewSet ts collate) (mkRequest (Some u) c) db (tag_id t) = inr t.
Proof.
  intros Hnd Ht Hu. unfold get_object.
  rewrite (get_pk_unique (H:=Tag_Model) (Tag_objects db) _ t); try done.
  - intros x Hx. by apply tag_queryset_elem in Hx as [_ Hx].
  - apply tag_queryset_elem. simpl. by subst.
Qed.

End OwnRows.

(** X1: a row owned by another user, wherever it sits in the table, does
    not change what the caller's list returns, for recipes and for tags. *)
Theorem list_ignores_foreign_rows {RD TD}
    (rs : serializer_class → Serializer Recipe RD)
    (ts : serializer_class → Serializer Tag TD)
    (collate : string → string → bool) (u : nat)
    (us : list User) (j : gset (nat * nat))
    (rows1 rows2 : list Recipe) (r : Recipe)
    (tags1 tags2 : list Tag) (t : Tag) :
  recipe_user r ≠ u → tag_user t ≠ u →
  (dispatch (RecipeViewSet rs) (mkRequest (Some u) List)
     (mkDb us (tags1 ++ t :: tags2) (rows1 ++ r :: rows2) j)).2
  = (dispatch (RecipeViewSet rs) (mkRequest (Some u) List)
       (mkDb us (tags1 ++ tags2) (rows1 ++ rows2) j)).2 ∧
  (dispatch (TagViewSet ts collate) (mkRequest (Some u) List)
     (mkDb us (tags1 ++ t :: tags2) (rows1 ++ r :: rows2) j)).2
  = (dispatch (TagViewSet ts collate) (mkRequest (Some u) List)
       (mkDb us (tags1 ++ tags2) (rows1 ++ rows2) j)).2.
Proof.
  intros Hr Ht. rewrite !recipe_list_response, !tag_list_response. simpl.
  unfold filter_user. rewrite !filter_app.
  rewrite (filter_cons_False _ r) by (simpl; congruence).
  rewrite (filter_cons_False _ t) by (simpl; congruence).
  done.
Qed.

(** User 1 lists recipes and tags of the sample store, with and without
    the rows of user 2. *)
Lemma list_ignores_foreign_rows_witness :
  (dispatch (RecipeViewSet Fixtures.recipe_serializers)
     (mkRequest (Some 1) List) Fixtures.sample_db).2
  = (dispatch (RecipeViewSet Fixtures.recipe_serializers)
       (mkRequest (Some 1) List)
       (mkDb [Fixtures.user1; Fixtures.user2]
          [Fixtures.tag_vegan; Fixtures.tag_dinner; Fixtures.tag_breakfast]
          [Fixtures.recipe1; Fixtures.recipe3]
          {[ (1, 1); (1, 4); (2, 3) ]})).2.
Proof.
  refine (proj1 (list_ignores_foreign_rows Fixtures.recipe_serializers
    Fixtures.tag_serializers String.leb 1 [Fixtures.user1; Fixtures.user2]
    {[ (1, 1); (1, 4); (2, 3) ]} [Fixtures.recipe1] [Fixtures.recipe3]
    Fixtures.recipe2 [Fixtures.tag_vegan; Fixtures.tag_dinner]
    [Fixtures.tag_breakfast] Fixtures.tag_other _ _)); simpl; lia.
Defined.

(** X2: the owner of a stored recipe, primary keys being unique, reads it
    by its id: the answer is 200 with exactly that row, rendered by the
    detail serializer, and the store is unchanged. *)
Theorem own_recipe_retrieve {RD}
    (rs : serializer_class → Serializer Recipe RD)
    (db : Db) (u : nat) (r : Recipe) :
  NoDup (recipe_id <$> Recipe_objects db) →
  r ∈ Recipe_objects db → recipe_user r = u →
  dispatch (RecipeViewSet rs) (mkRequest (Some u) (Retrieve (recipe_id r))) db
  = (db, mkResponse HTTP_200_OK (One RecipeDetailSerializer r)).
Proof.
  intros Hnd Hr Hu. rewrite recipe_retrieve_response.
  by rewrite own_recipe_get_object.
Qed.

Lemma own_recipe_retrieve_witness :
  dispatch (RecipeViewSet Fixtures.recipe_serializers)
    (mkRequest (Some 1) (Retrieve 3)) Fixtures.sample_db
  = (Fixtures.sample_db,
     mkResponse HTTP_200_OK (One RecipeDetailSerializer Fixtures.recipe3)).
Proof.
  apply (own_recipe_retrieve Fixtures.recipe_serializers Fixtures.sample_db 1
           Fixtures.recipe3).
  - apply (bool_decide_unpack _). vm_compute. reflexivity.
  - apply (bool_decide_unpack _). vm_compute. reflexivity.
  - reflexivity.
Defined.

(** X3: when the owner deletes a stored recipe, primary keys being unique,
    the answer is 204; the recipe's row and its tag associations are gone
    while every other row, association, tag and user is kept; and after
    that the id is not found and the owner's list no longer has the
    recipe. *)
Theorem own_recipe_destroy {RD}
    (rs : serializer_class → Serializer Recipe RD)
    (db : Db) (u : nat) (r : Recipe) :
  NoDup (recipe_id <$> Recipe_objects db) →
  r ∈ Recipe_objects db → recipe_user r = u →
  let res := dispatch (RecipeViewSet rs)
               (mkRequest (Some u) (Destroy (recipe_id r))) db in
  res.2 = mkResponse HTTP_204_NO_CONTENT NoData ∧
  (∀ x, x ∈ Recipe_objects res.1 ↔
        x ∈ Recipe_objects db ∧ recipe_id x ≠ recipe_id r) ∧
  tag_ids_of res.1 (recipe_id r) = ∅ ∧
  (∀ rid, rid ≠ recipe_id r → tag_ids_of res.1 rid = tag_ids_of db rid) ∧
  Tag_objects res.1 = Tag_objects db ∧
  User_objects res.1 = User_objects db ∧
  dispatch (RecipeViewSet rs) (mkRequest (Some u) (Retrieve (recipe_id r))) res.1
    = (res.1, mkResponse HTTP_404_NOT_FOUND NoData) ∧
  r ∉ records (data (dispatch (RecipeViewSet rs)
                       (mkRequest (Some u) List) res.1).2).
Proof.
  intros Hnd Hr Hu.
  assert (dispatch (RecipeViewSet rs)
            (mkRequest (Some u) (Destroy (recipe_id r))) db
          = (delete_row r db, mkResponse HTTP_204_NO_CONTENT NoData)) as ->.
  { unfold dispatch, handler. simpl.
    by rewrite (own_recipe_get_object rs db u r _ Hnd Hr Hu). }
  cbn [fst snd].
  assert (∀ x, x ∈ filter (λ x, recipe_id x ≠ recipe_id r) (Recipe_objects db)
               ↔ x ∈ Recipe_objects db ∧ recipe_id x ≠ recipe_id r) as Hrows.
  { intros x. rewrite list_elem_of_filter. tauto. }
  split_and!; try done.
  - apply set_eq. intros i. rewrite ReconcilerFacts.elem_of_tag_ids_of. simpl.
    rewrite elem_of_filter, elem_of_empty. simpl. tauto.
  - intros rid Hne. apply set_eq. intros i.
    rewrite !ReconcilerFacts.elem_of_tag_ids_of. simpl.
    rewrite elem_of_filter. simpl. tauto.
  - rewrite recipe_retrieve_response.
    rewrite recipe_get_object_404; [done|].
    simpl. intros x [_ Hx]%Hrows. done.
  - rewrite recipe_list_response. cbn [snd data records]. intros Hin.
    change (r ∈ get_queryset (RecipeViewSet rs) (mkRequest (Some u) List)
                  (delete_row r db)) in Hin.
    apply recipe_queryset_elem in Hin as [_ Hin].
    simpl in Hin. apply Hrows in Hin as [_ Hne]. done.
Qed.

(** User 1 deletes recipe 1 of the sample store, which carries two tags. *)
Lemma own_recipe_destroy_witness :
  let res := dispatch (RecipeViewSet Fixtures.recipe_serializers)
               (mkRequest (Some 1) (Destroy 1)) Fixtures.sample_db in
  res.2 = mkResponse HTTP_204_NO_CONTENT NoData ∧
  tag_ids_of res.1 1 = ∅ ∧
  Tag_objects res.1 = Tag_objects Fixtures.sample_db.
Proof.
  intros res.
  destruct (own_recipe_destroy Fixtures.recipe_serializers Fixtures.sample_db
              1 Fixtures.recipe1) as (H1 & _ & H3 & _ & H5 & _).
  - apply (bool_decide_unpack _). vm_compute. reflexivity.
  - apply (bool_decide_unpack _). vm_compute. reflexivity.
  - reflexivity.
  - split; [exact H1|]. split; [exact H3|exact H5].
Defined.

(** X4: when the owner deletes a stored tag, primary keys being unique, the
    answer is 204; the tag's row is gone and the tag is detached from every
    recipe, while the other tags, the recipes and the users are kept; a
    second delete of the id is not found, and the owner's list no longer
    has the tag. *)
Theorem own_tag_destroy {TD}
    (ts : serializer_class → Serializer Tag TD)
    (collate : string → string → bool)
    (db : Db) (u : nat) (t : Tag) :
  NoDup (tag_id <$> Tag_objects db) →
  t ∈ Tag_objects db → tag_user t = u →
  let res := dispatch (TagViewSet ts collate)
               (mkRequest (Some u) (Destroy (tag_id t))) db in
  res.2 = mkResponse HTTP_204_NO_CONTENT NoData ∧
  (∀ x, x ∈ Tag_objects res.1 ↔ x ∈ Tag_objects db ∧ tag_id x ≠ tag_id t) ∧
  (∀ rid, tag_ids_of res.1 rid = tag_ids_of db rid ∖ {[ tag_id t ]}) ∧
  Recipe_objects res.1 = Recipe_objects db ∧
  User_objects res.1 = User_objects db ∧
  dispatch (TagViewSet ts collate) (mkRequest (Some u) (Destroy (tag_id t))) res.1
    = (res.1, mkResponse HTTP_404_NOT_FOUND NoData) ∧
  t ∉ records (data (dispatch (TagViewSet ts collate)
                       (mkRequest (Some u) List) res.1).2).
Proof.
  intros Hnd Ht Hu.
  assert (dispatch (TagViewSet ts collate)
            (mkRequest (Some u) (Destroy (tag_id t))) db
          = (delete_row t db, mkResponse HTTP_204_NO_CONTENT NoData)) as ->.
  { unfold dispatch, handler. simpl.
    by rewrite (own_tag_get_object ts collate db u t _ Hnd Ht Hu). }
  cbn [fst snd].
  assert (∀ x, x ∈ filter (λ x, tag_id x ≠ tag_id t) (Tag_objects db)
               ↔ x ∈ Tag_objects db ∧ tag_id x ≠ tag_id t) as Hrows.
  { intros x. rewrite list_elem_of_filter. tauto. }
  split_and!; try done.
  - intros rid. apply set_eq. intros i.
    rewrite elem_of_difference, !ReconcilerFacts.elem_of_tag_ids_of. simpl.
    rewrite elem_of_filter, elem_of_singleton. simpl. tauto.
  - apply (ForeignRows.tag_mutation_404 ts collate u (tag_id t)); [auto|].
    apply tag_get_object_404. simpl. intros x [_ Hx]%Hrows. done.
  - rewrite tag_list_response. cbn [snd data records]. intros Hin.
    change (t ∈ get_queryset (TagViewSet ts collate) (mkRequest (Some u) List)
                  (delete_row t db)) in Hin.
    apply tag_queryset_elem in Hin as [_ Hin].
    simpl in Hin. apply Hrows in Hin as [_ Hne]. done.
Qed.

(** User 1 deletes the tag "breakfast", which recipe 1 carries. *)
Lemma own_tag_destroy_witness :
  let res := dispatch (TagViewSet Fixtures.tag_serializers String.leb)
               (mkRequest (Some 1) (Destroy 4)) Fixtures.sample_db in
  res.2 = mkResponse HTTP_204_NO_CONTENT NoData ∧
  tag_ids_of res.1 1 = tag_ids_of Fixtures.sample_db 1 ∖ {[ 4 ]}.
Proof.
  intros res.
  destruct (own_tag_destroy Fixtures.tag_serializers String.leb
              Fixtures.sample_db 1 Fixtures.tag_breakfast) as (H1 & _ & H3 & _).
  - apply (bool_decide_unpack _). vm_compute. reflexivity.
  - apply (bool_decide_unpack _). vm_compute. reflexivity.
  - reflexivity.
  - split; [exact H1|exact (H3 1)].
Defined.

(** X5: the tag view set has no create and no detail read: for an
    authenticated caller both calls answer 405 with no data, whatever the
    body or the id, and leave the store as it is. *)
Theorem tag_create_retrieve_not_allowed {TD}
    (ts : serializer_class → Serializer Tag TD)
    (collate : string → string → bool) (db : Db) (u k : nat) (d : TD) :
  dispatch (TagViewSet ts collate) (mkRequest (Some u) (Create d)) db
    = (db, mkResponse HTTP_405_METHOD_NOT_ALLOWED NoData) ∧
  dispatch (TagViewSet ts collate) (mkRequest (Some u) (Retrieve k)) db
    = (db, mkResponse HTTP_405_METHOD_NOT_ALLOWED NoData).
Proof. split; reflexivity. Qed.

(** X6: an authenticated caller never gets 401 or 403 from either view set,
    whatever the call, a method that no action is bound to included; such a
    method is answered 405 by both view sets, and the recipe view set, which
    has every action, answers 405 to nothing else. *)
Theorem authenticated_never_denied {RD TD}
    (rs : serializer_class → Serializer Recipe RD)
    (ts : serializer_class → Serializer Tag TD)
    (collate : string → string → bool)
    (db : Db) (u : nat) (c : call RD) (c' : call TD) :
  let st := status_code (dispatch (RecipeViewSet rs) (mkRequest (Some u) c) db).2 in
  let st' := status_code (dispatch (TagViewSet ts collate)
                            (mkRequest (Some u) c') db).2 in
  st ≠ HTTP_401_UNAUTHORIZED ∧ st ≠ HTTP_403_FORBIDDEN ∧
  (st = HTTP_405_METHOD_NOT_ALLOWED ↔ c = Unrouted) ∧
  st' ≠ HTTP_401_UNAUTHORIZED ∧ st' ≠ HTTP_403_FORBIDDEN ∧
  (c' = Unrouted → st' = HTTP_405_METHOD_NOT_ALLOWED).
Proof.
  simpl. split_and!.
  1-3: destruct c as [|d|k|k d|k d|k|]; unfold dispatch, handler, get_object; simpl;
    repeat (match goal with
            | |- context [get_pk ?k ?l] => destruct (get_pk k l)
            | |- context [is_valid ?a ?b ?c ?d] => destruct (is_valid a b c d)
            | |- context [create ?a ?b ?c ?d ?e] => destruct (create a b c d e)
            | |- context [update ?a ?b ?c ?d ?e] => destruct (update a b c d e)
            end; simpl); try done; split; intros Heq; done.
  all: destruct c' as [|d|k|k d|k d|k|]; unfold dispatch, handler, get_object; simpl;
    repeat (match goal with
            | |- context [get_pk ?k ?l] => destruct (get_pk k l)
            | |- context [is_valid ?a ?b ?c ?d] => destruct (is_valid a b c d)
            | |- context [update ?a ?b ?c ?d ?e] => destruct (update a b c d e)
            end; simpl); done.
Qed.

(** X7: the serializer class follows the action: the body of a recipe list
    response is a list rendered by the list serializer, and every other
    response of the recipe view set that has a body is a single row rendered
    by the detail serializer. *)
Theorem recipe_serializer_by_action {RD}
    (rs : serializer_class → Serializer Recipe RD)
    (db : Db) (req : Request RD) :
  match data (dispatch (RecipeViewSet rs) req db).2 with
  | NoData => True
  | Many cls _ => cls = RecipeSerializer ∧ request_call req = List
  | One cls _ => cls = RecipeDetailSerializer ∧ request_call req ≠ List
  end.
Proof.
  destruct req as [[u|] c]; [|done].
  destruct c as [|d|k|k d|k d|k|]; unfold dispatch, handler, get_object; simpl;
    repeat (match goal with
            | |- context [get_pk ?k ?l] => destruct (get_pk k l)
            | |- context [is_valid ?a ?b ?c ?d] => destruct (is_valid a b c d)
            | |- context [create ?a ?b ?c ?d ?e] => destruct (create a b c d e)
            | |- context [update ?a ?b ?c ?d ?e] => destruct (update a b c d e)
            end; simpl); done.
Qed.

(** X8: a create call of an authenticated caller runs the serializer's
    create exactly when the body is valid, with the caller as the [user]
    keyword of [save], and answers 201 with the created row; an invalid body
    answers 400 and leaves the store as it is. *)
Theorem recipe_create_saves_for_caller {RD}
    (rs : serializer_class → Serializer Recipe RD)
    (db : Db) (u : nat) (d : RD) :
  let sz := rs RecipeDetailSerializer in
  let res := dispatch (RecipeViewSet rs) (mkRequest (Some u) (Create d)) db in
  (is_valid sz false db d = true →
   res = ((create sz (Some u) (Some u) d db).1,
          mkResponse HTTP_201_CREATED
            (One RecipeDetailSerializer (create sz (Some u) (Some u) d db).2))) ∧
  (is_valid sz false db d = false →
   res = (db, mkResponse HTTP_400_BAD_REQUEST NoData)).
Proof.
  simpl. unfold dispatch, handler. simpl. split; intros ->; [|done].
  by destruct (create _ _ _ _ _).
Qed.

(** With the serializer of the recipe store, user 2 creates a recipe: it
    gets a fresh id and user 2 as owner. *)
Lemma recipe_create_saves_for_caller_witness :
  let d := mkRecipeData (Some "Sample Recipe") (Some 10) (Some 350%Z)
             None None None in
  (dispatch (RecipeViewSet Fixtures.recipe_serializers)
     (mkRequest (Some 2) (Create d)) Fixtures.sample_db).2
  = mkResponse HTTP_201_CREATED
      (One RecipeDetailSerializer (mkRecipe 4 2 "Sample Recipe" 10 350 "" "")).
Proof.
  intros d.
  destruct (recipe_create_saves_for_caller Fixtures.recipe_serializers
              Fixtures.sample_db 2 d) as [Hok _].
  rewrite (Hok eq_refl). vm_compute. reflexivity.
Defined.

(** X9: with unique primary keys the recipe list does not depend on the
    order in which the table holds its rows: two stores whose recipe tables
    are permutations of each other answer the same list. *)
Theorem recipe_list_storage_order {RD}
    (rs : serializer_class → Serializer Recipe RD)
    (db1 db2 : Db) (u : nat) :
  NoDup (recipe_id <$> Recipe_objects db1) →
  Recipe_objects db1 ≡ₚ Recipe_objects db2 →
  (dispatch (RecipeViewSet rs) (mkRequest (Some u) List) db1).2
  = (dispatch (RecipeViewSet rs) (mkRequest (Some u) List) db2).2.
Proof.
  intros Hnd Hperm. rewrite !recipe_list_response. simpl. do 2 f_equal.
  apply (StronglySorted_unique_strong (id_desc (A:=Recipe))).
  - intros x1 x2 Hx1 Hx2 H12 H21. unfold id_desc in *. simpl in *.
    unfold order_by_id_desc in Hx1, Hx2.
    rewrite merge_sort_Permutation in Hx1, Hx2.
    apply (elem_of_filter_user (H:=Recipe_Model)) in Hx1 as [_ Hx1].
    apply (elem_of_filter_user (H:=Recipe_Model)) in Hx2 as [_ Hx2].
    rewrite <-Hperm in Hx2.
    apply (unique_pk (H:=Recipe_Model) _ x1 x2 Hnd Hx1 Hx2). simpl. lia.
  - exact (StronglySorted_merge_sort (id_desc (A:=Recipe)) _).
  - exact (StronglySorted_merge_sort (id_desc (A:=Recipe)) _).
  - unfold order_by_id_desc, filter_user.
    by rewrite !merge_sort_Permutation, Hperm.
Qed.

(** The recipes of the sample store, stored in another order. *)
Lemma recipe_list_storage_order_witness :
  (dispatch (RecipeViewSet Fixtures.recipe_serializers)
     (mkRequest (Some 1) List) Fixtures.sample_db).2
  = (dispatch (RecipeViewSet Fixtures.recipe_serializers)
       (mkRequest (Some 1) List)
       (mkDb [] [] [Fixtures.recipe3; Fixtures.recipe2; Fixtures.recipe1] ∅)).2.
Proof.
  apply (recipe_list_storage_order Fixtures.recipe_serializers
           Fixtures.sample_db
           (mkDb [] [] [Fixtures.recipe3; Fixtures.recipe2; Fixtures.recipe1] ∅) 1).
  - apply (bool_decide_unpack _). vm_compute. reflexivity.
  - simpl. apply (bool_decide_unpack _). vm_compute. reflexivity.
Defined.

(** X19: an update of a stored row by its owner, primary keys being
    unique, validates the body in full for an update and partially for a
    partial update; a valid body runs the serializer's update on the stored
    row with the caller in the serializer context and answers 200 with the
    result; an invalid body answers 400 and leaves the store as it is.
    This holds for recipes and for tags. *)
Theorem own_row_update {RD TD}
    (rs : serializer_class → Serializer Recipe RD)
    (ts : serializer_class → Serializer Tag TD)
    (collate : string → string → bool)
    (db : Db) (u : nat) (d : RD) (d' : TD) :
  (∀ r, NoDup (recipe_id <$> Recipe_objects db) →
        r ∈ Recipe_objects db → recipe_user r = u →
        Forall (λ cp : call RD * bool,
            let sz := rs RecipeDetailSerializer in
            dispatch (RecipeViewSet rs) (mkRequest (Some u) cp.1) db =
              if is_valid sz cp.2 db d
              then ((update sz (Some u) r d db).1,
                    mkResponse HTTP_200_OK
                      (One RecipeDetailSerializer (update sz (Some u) r d db).2))
              else (db, mkResponse HTTP_400_BAD_REQUEST NoData))
          [(Update (recipe_id r) d, false);
           (PartialUpdate (recipe_id r) d, true)]) ∧
  (∀ t, NoDup (tag_id <$> Tag_objects db) →
        t ∈ Tag_objects db → tag_user t = u →
        Forall (λ cp : call TD * bool,
            let sz := ts TagSerializer in
            dispatch (TagViewSet ts collate) (mkRequest (Some u) cp.1) db =
              if is_valid sz cp.2 db d'
              then ((update sz (Some u) t d' db).1,
                    mkResponse HTTP_200_OK
                      (One TagSerializer (update sz (Some u) t d' db).2))
              else (db, mkResponse HTTP_400_BAD_REQUEST NoData))
          [(Update (tag_id t) d', false);
           (PartialUpdate (tag_id t) d', true)]).
Proof.
  split.
  - intros r Hnd Hr Hu.
    repeat (apply Forall_cons; split); [..|apply Forall_nil_2];
      cbn [fst snd]; unfold dispatch, handler; simpl;
      rewrite (own_recipe_get_object rs db u r _ Hnd Hr Hu);
      destruct (is_valid _ _ _ _); [|done| |done];
      by destruct (update _ _ _ _ _).
  - intros t Hnd Ht Hu.
    repeat (apply Forall_cons; split); [..|apply Forall_nil_2];
      cbn [fst snd]; unfold dispatch, handler; simpl;
      rewrite (own_tag_get_object ts collate db u t _ Hnd Ht Hu);
      destruct (is_valid _ _ _ _); [|done| |done];
      by destruct (update _ _ _ _ _).
Qed.

(** With the serializers of the recipe store, user 1 renames the tag
    "Dinner" of the sample store. *)
Lemma own_row_update_witness :
  (dispatch (TagViewSet Fixtures.tag_serializers String.leb)
     (mkRequest (Some 1) (PartialUpdate 2 (mkTagData (Some "Lunch"%string))))
     Fixtures.sample_db).2
  = mkResponse HTTP_200_OK (One TagSerializer (mkTag 2 "Lunch" 1)).
Proof.
  destruct (own_row_update Fixtures.recipe_serializers Fixtures.tag_serializers
              String.leb Fixtures.sample_db 1 Fixtures.no_fields
              (mkTagData (Some "Lunch"%string))) as [_ HT].
  assert (NoDup (tag_id <$> Tag_objects Fixtures.sample_db)) as Hnd
    by (apply (bool_decide_unpack _); vm_compute; reflexivity).
  assert (Fixtures.tag_dinner ∈ Tag_objects Fixtures.sample_db) as Hin
    by (apply (bool_decide_unpack _); vm_compute; reflexivity).
  pose proof (HT Fixtures.tag_dinner Hnd Hin eq_refl) as HF.
  apply Forall_cons in HF as [_ HF]. apply Forall_cons in HF as [HF _].
  cbn [fst snd] in HF. simpl in HF. rewrite HF. reflexivity.
Defined.

End ViewSetFacts.

(** ** Further properties of the user serializers *)

Module UserSerializerFacts.

Import UserSerializer AuthTokenSerializer UserFacts.

Local Open Scope list_scope.

(** X10: an update whose validated data carries the empty string as
    password leaves the stored hash as it was, while the supplied email and
    name are applied. *)
Theorem update_empty_password_keeps_hash (make_password : string → string)
    (u : User) (vd : gmap string string) (db : Db) :
  vd !! "password" = Some "" →
  let res := update make_password u vd db in
  password res.2 = password u ∧
  email res.2 = default (email u) (vd !! "email") ∧
  name res.2 = default (name u) (vd !! "name") ∧
  res.1 = save res.2 db.
Proof.
  intros Hp.
  destruct (update_fields make_password u vd db) as (Hs & _ & He & Hn & Hpw).
  rewrite Hp in Hpw. simpl in *. done.
Qed.

Lemma update_empty_password_keeps_hash_witness :
  password (update Fixtures.sample_hasher Fixtures.user1
              {[ "password" := ""; "name" := "New" ]} Fixtures.sample_db).2
  = password Fixtures.user1.
Proof.
  refine (proj1 (update_empty_password_keeps_hash Fixtures.sample_hasher
    Fixtures.user1 {[ "password" := ""; "name" := "New" ]} Fixtures.sample_db _)).
  vm_compute. reflexivity.
Defined.

(** X11: the update writes only the user table, and there only the row of
    the instance: the tag, recipe and association tables are unchanged,
    every row with another primary key is kept as it is, the instance's row
    holds the returned user, and when the instance's key is stored the keys
    of the table (so their number and uniqueness) are the same. *)
Theorem update_store_frame (make_password : string → string)
    (u : User) (vd : gmap string string) (db : Db) :
  let res := update make_password u vd db in
  Tag_objects res.1 = Tag_objects db ∧
  Recipe_objects res.1 = Recipe_objects db ∧
  recipe_tags res.1 = recipe_tags db ∧
  (∀ x, user_id x ≠ user_id u →
        x ∈ User_objects res.1 ↔ x ∈ User_objects db) ∧
  res.2 ∈ User_objects res.1 ∧
  (user_id u ∈ user_id <$> User_objects db →
   user_id <$> User_objects res.1 = user_id <$> User_objects db).
Proof.
  destruct (update_fields make_password u vd db) as (Hs & Hi & _).
  simpl. rewrite Hs. split_and!; try done.
  - intros x Hne. apply save_other_rows. by rewrite Hi.
  - apply save_row.
  - intros Hin. apply save_user_ids. by rewrite Hi.
Qed.

(** User 1 of the sample store changes the name: the row of user 2 and the
    keys of the table are as before. *)
Lemma update_store_frame_witness :
  let res := update Fixtures.sample_hasher Fixtures.user1
               {[ "name" := "New" ]} Fixtures.sample_db in
  Fixtures.user2 ∈ User_objects res.1 ∧
  user_id <$> User_objects res.1 = [1; 2]%nat.
Proof.
  intros res.
  destruct (update_store_frame Fixtures.sample_hasher Fixtures.user1
              {[ "name" := "New" ]} Fixtures.sample_db)
    as (_ & _ & _ & Hrows & _ & Hids).
  split.
  - apply (Hrows Fixtures.user2); [simpl; lia|].
    apply (bool_decide_unpack _). vm_compute. reflexivity.
  - apply Hids. apply (bool_decide_unpack _). vm_compute. reflexivity.
Defined.

(** X12: the password of the body takes no part in the generic update: the
    user that an update returns is the one that the update without the
    password key returns, with [set_password] applied when the password is
    a non-empty string. *)
Theorem update_password_apart (make_password : string → string)
    (u : User) (vd : gmap string string) (db : Db) :
  let base := (update make_password u (delete "password" vd) db).2 in
  (update make_password u vd db).2 =
    match vd !! "password" with
    | Some p => if decide (p = "") then base else set_password make_password base p
    | None => base
    end.
Proof.
  simpl. unfold update, super_update. simpl.
  rewrite lookup_delete_eq, delete_delete_eq.
  destruct (vd !! "password") as [p|]; [|done].
  by destruct (decide (p = "")).
Qed.

(** X13: an update with no validated data returns the instance as it is,
    and leaves the store as it is when the instance is a stored row of a
    table with unique keys. *)
Theorem update_nothing (make_password : string → string) (u : User) (db : Db) :
  NoDup (user_id <$> User_objects db) → u ∈ User_objects db →
  update make_password u ∅ db = (db, u).
Proof.
  intros Hnd Hu. unfold update, super_update.
  rewrite lookup_empty, delete_empty, map_fold_empty.
  by rewrite save_stored.
Qed.

Lemma update_nothing_witness :
  update Fixtures.sample_hasher Fixtures.user2 ∅ Fixtures.sample_db
  = (Fixtures.sample_db, Fixtures.user2).
Proof.
  apply update_nothing.
  - apply (bool_decide_unpack _). vm_compute. reflexivity.
  - apply (bool_decide_unpack _). vm_compute. reflexivity.
Defined.

(** X14: the representation of a user is its email and its name, in that
    order, and nothing else; after an update it shows the supplied email and
    name, or the old ones where none is supplied, whatever the password
    was. *)
Theorem representation_after_update (make_password : string → string)
    (u : User) (vd : gmap string string) (db : Db) :
  to_representation u = [("email", email u); ("name", name u)] ∧
  to_representation (update make_password u vd db).2
  = [("email", default (email u) (vd !! "email"));
     ("name", default (name u) (vd !! "name"))].
Proof.
  assert (∀ v, to_representation v = [("email", email v); ("name", name v)])
    as Hrep by done.
  split; [done|]. rewrite Hrep.
  destruct (update_fields make_password u vd db) as (_ & _ & He & Hn & _).
  simpl in *. by rewrite He, Hn.
Qed.

(** X16: validation returns attributes only when the credential check, run
    on the email and password of the request, found a user: the result is
    the request's attributes with that user under the key "user" and every
    other key as it was; and a not-authenticated error means that the check
    was reached and found nobody. *)
Theorem validate_inversion (authenticate : value → value → option User)
    (attrs : gmap string value) :
  (∀ r, validate authenticate attrs = inr r →
     truthy (dict_get attrs "email") = true ∧
     dict_get attrs "password" ≠ VNone ∧
     ∃ user,
       authenticate (dict_get attrs "email") (dict_get attrs "password")
         = Some user ∧
       r !! "user" = Some (VUser user) ∧
       ∀ k, k ≠ "user" → r !! k = attrs !! k) ∧
  (validate authenticate attrs = inl NotAuthenticated →
     truthy (dict_get attrs "email") = true ∧
     dict_get attrs "password" ≠ VNone ∧
     authenticate (dict_get attrs "email") (dict_get attrs "password") = None) ∧
  (∀ e, validate authenticate attrs = inl e →
     e = ValidationError ∨ e = NotAuthenticated).
Proof.
  unfold validate.
  destruct (truthy (dict_get attrs "email")) eqn:He; simpl;
    [|split_and!; [done|done|intros e [= <-]; by left]].
  destruct (decide (dict_get attrs "password" = VNone)) as [Hp|Hp].
  { rewrite bool_decide_eq_true_2 by done.
    split_and!; [done|done|intros e [= <-]; by left]. }
  rewrite bool_decide_eq_false_2 by done.
  destruct (authenticate _ _) as [user|] eqn:Ha.
  - split_and!; [|done|done].
    intros r [= <-]. split_and!; try done. exists user. split_and!; try done.
    + by rewrite lookup_insert_eq.
    + intros k Hk. by rewrite lookup_insert_ne.
  - split_and!; [done|done|intros e [= <-]; by right].
Qed.

Lemma validate_inversion_witness :
  let authenticate e p :=
    if decide (e = VStr "user@example.com" ∧ p = VStr "testpass123")
    then Some Fixtures.user1 else None in
  ∃ r,
    validate authenticate
      {[ "email" := VStr "user@example.com"; "password" := VStr "testpass123" ]}
    = inr r ∧
    r !! "user" = Some (VUser Fixtures.user1) ∧
    r !! "email" = Some (VStr "user@example.com").
Proof.
  intros authenticate.
  set (attrs := ({[ "email" := VStr "user@example.com";
                    "password" := VStr "testpass123" ]} : gmap string value)).
  destruct (validate authenticate attrs) as [e|r] eqn:Hv;
    [vm_compute in Hv; discriminate|].
  destruct (validate_inversion authenticate attrs) as (Hok & _ & _).
  destruct (Hok r Hv) as (_ & _ & user & Ha & Hu & Hk).
  exists r. split; [reflexivity|]. split.
  - rewrite Hu. vm_compute in Ha. injection Ha as <-. reflexivity.
  - rewrite (Hk "email"); [|discriminate]. vm_compute. reflexivity.
Defined.

(** X17: validated attributes validate again to themselves: the attached
    user does not disturb the email and password, so the same credential
    check attaches the same user. *)
Theorem validate_idempotent (authenticate : value → value → option User)
    (attrs r : gmap string value) :
  validate authenticate attrs = inr r → validate authenticate r = inr r.
Proof.
  intros Hv. destruct (validate_inversion authenticate attrs) as (Hok & _ & _).
  destruct (Hok r Hv) as (He & Hp & user & Ha & Hu & Hk).
  assert (dict_get r "email" = dict_get attrs "email") as Hre
    by (unfold dict_get; by rewrite Hk).
  assert (dict_get r "password" = dict_get attrs "password") as Hrp
    by (unfold dict_get; by rewrite Hk).
  unfold validate. rewrite Hre, Hrp, He, bool_decide_eq_false_2 by done.
  simpl. rewrite Ha. f_equal. by apply insert_id.
Qed.

Lemma validate_idempotent_witness :
  let authenticate e p :=
    if decide (e = VStr "user@example.com" ∧ p = VStr "testpass123")
    then Some Fixtures.user1 else None in
  let r : gmap string value :=
    {[ "email" := VStr "user@example.com"; "password" := VStr "testpass123";
       "user" := VUser Fixtures.user1 ]} in
  validate authenticate r = inr r.
Proof.
  intros authenticate r.
  apply (validate_idempotent authenticate
           {[ "email" := VStr "user@example.com";
              "password" := VStr "testpass123" ]}).
  vm_compute. reflexivity.
Defined.

End UserSerializerFacts.

(** ** Properties of the test helpers *)

Module TestHelperFacts.

Import AccessScope.

Local Open Scope list_scope.

Lemma fresh_id_gt (ids : list nat) (i : nat) : i ∈ ids → (i < fresh_id ids)%nat.
Proof. intros Hi%max_list_elem_of_le. unfold fresh_id. lia. Qed.

(** X18: a recipe made by the test helper for user [u], in a table with
    unique primary keys, takes the parameters over the defaults, gets a
    primary key that no row has, and keeps the keys unique; it comes first
    in the list of [u], before the recipes that [u] saw until then, and the
    list of every other user is as it was. *)
Theorem created_recipe_listed_first {RD}
    (rs : serializer_class → Serializer Recipe RD)
    (db : Db) (u : nat) (params : TestHelpers.RecipeParams) :
  NoDup (recipe_id <$> Recipe_objects db) →
  let res := TestHelpers.create_recipe u params db in
  recipe_user res.2 = u ∧
  title res.2 = default "Test Recipe"%string (TestHelpers.param_title params) ∧
  link res.2
    = default "https://www.example.com"%string (TestHelpers.param_link params) ∧
  (recipe_id res.2 ∉ recipe_id <$> Recipe_objects db) ∧
  NoDup (recipe_id <$> Recipe_objects res.1) ∧
  records (data (dispatch (RecipeViewSet rs) (mkRequest (Some u) List) res.1).2)
    = res.2 :: records (data (dispatch (RecipeViewSet rs)
                                (mkRequest (Some u) List) db).2) ∧
  (∀ v, v ≠ u →
     (dispatch (RecipeViewSet rs) (mkRequest (Some v) List) res.1).2
     = (dispatch (RecipeViewSet rs) (mkRequest (Some v) List) db).2).
Proof.
  intros Hnd. unfold TestHelpers.create_recipe, TestHelpers.Recipe_objects_create.
  cbn [fst snd].
  set (r := mkRecipe _ u _ _ _ _ _).
  assert (recipe_id r ∉ (recipe_id <$> Recipe_objects db)) as Hfresh.
  { intros Hin%fresh_id_gt. simpl in Hin. lia. }
  assert (NoDup (recipe_id <$> (Recipe_objects db ++ [r]))) as Hnd'.
  { rewrite fmap_app. apply NoDup_app. split_and!; [done| |apply NoDup_singleton].
    intros i Hi ->%list_elem_of_singleton. done. }
  split_and!; try done.
  - rewrite !recipe_list_response. cbn [snd data records Recipe_objects].
    unfold filter_user. rewrite filter_app.
    rewrite (filter_cons_True _ r) by done. rewrite filter_nil.
    apply (StronglySorted_unique_strong (id_desc (A:=Recipe))).
    + intros x1 x2 Hx1 Hx2 H12 H21. unfold id_desc in *. simpl in *.
      apply (unique_pk (H:=Recipe_Model) (Recipe_objects db ++ [r]));
        [done| | |simpl; lia].
      * unfold order_by_id_desc in Hx1.
        rewrite merge_sort_Permutation in Hx1.
        rewrite elem_of_app, list_elem_of_filter in Hx1.
        rewrite elem_of_app. tauto.
      * rewrite elem_of_app, list_elem_of_singleton.
        apply elem_of_cons in Hx2 as [->|Hx2]; [by right|].
        unfold order_by_id_desc in Hx2.
        rewrite merge_sort_Permutation in Hx2.
        apply list_elem_of_filter in Hx2 as [_ Hx2]. by left.
    + exact (StronglySorted_merge_sort (id_desc (A:=Recipe)) _).
    + constructor; [exact (StronglySorted_merge_sort (id_desc (A:=Recipe)) _)|].
      apply Forall_forall. intros x Hx. unfold order_by_id_desc in Hx.
      rewrite merge_sort_Permutation in Hx.
      apply list_elem_of_filter in Hx as [_ Hx].
      unfold id_desc. simpl.
      assert (recipe_id x < fresh_id (recipe_id <$> Recipe_objects db))%nat
        by (by apply fresh_id_gt, list_elem_of_fmap_2).
      lia.
    + unfold order_by_id_desc. rewrite !merge_sort_Permutation.
      by rewrite Permutation_app_comm.
  - intros v Hv. rewrite !recipe_list_response. cbn [snd Recipe_objects].
    unfold filter_user. rewrite filter_app.
    rewrite (filter_cons_False _ r) by (simpl; congruence).
    by rewrite filter_nil, app_nil_r.
Qed.

(** [test_retrieve_recipes]: user 1 gets one more recipe with another
    title; it leads the list. *)
Lemma created_recipe_listed_first_witness :
  let params :=
    TestHelpers.mkRecipeParams (Some "Test Recipe2"%string) None None None None in
  let res := TestHelpers.create_recipe 1 params Fixtures.sample_db in
  records (data (dispatch (RecipeViewSet Fixtures.recipe_serializers)
                   (mkRequest (Some 1) List) res.1).2)
  = [mkRecipe 4 1 "Test Recipe2" 22 525 "This is a test recipe"
       "https://www.example.com"; Fixtures.recipe3; Fixtures.recipe1].
Proof.
  intros params res.
  destruct (created_recipe_listed_first Fixtures.recipe_serializers
              Fixtures.sample_db 1 params) as (_ & _ & _ & _ & _ & Hlist & _).
  - apply (bool_decide_unpack _). vm_compute. reflexivity.
  - fold res in Hlist. rewrite Hlist. vm_compute. reflexivity.
Defined.

End TestHelperFacts.
